(** * YYC3 Python SDK client: session, login and request dispatch

    A shallow embedding of [examples/python-sdk/index.py].  The client object,
    the transport log and the console are threaded through a state and
    exception monad; a coroutine that talks to the server is split at its one
    suspension point (the moment the request is handed to the transport), so
    that [asyncio.gather] can be run under an arbitrary completion order. *)

From Stdlib Require Import ZArith Floats.
From stdpp Require Import gmap strings list fin_maps pretty.

Set Warnings "-register-all".

(** ** Decoded JSON bodies

    What [response.json()] hands back: [None], [bool], [int], [float], [str],
    [list] and [dict] with string keys. *)

Inductive json : Type :=
| JNull
| JBool (b : bool)
| JInt (z : Z)
| JFloat (f : float)
| JStr (s : string)
| JArr (l : list json)
| JObj (m : gmap string json).

(** ** The Python runtime as far as the client relies on it *)

Inductive exn : Type :=
| Exception (msg : string)      (* [raise Exception(msg)] *)
| AttributeError (attr : string)(* attribute looked up on an object lacking it *)
| KeyError (key : string)       (* [d[key]] on a dict without [key] *)
| TypeError                     (* subscripting something that is not a dict *)
| RuntimeError (msg : string)   (* aiohttp: request on a closed session *)
| ClientConnectionError         (* aiohttp: the transport failed *)
| ContentTypeError              (* aiohttp: body is not served as JSON *)
| JSONDecodeError.              (* json: body is not well-formed JSON *)

Inductive result (A : Type) : Type :=
| Ok (a : A)
| Raise (e : exn).
Arguments Ok {A} a.
Arguments Raise {A} e.

Module Py.

(** Truth value testing, as [if x:] and [x or y] perform it. *)
Definition truthy (v : json) : bool :=
  match v with
  | JNull => false
  | JBool b => b
  | JInt z => negb (z =? 0)%Z
  | JFloat f => negb (PrimFloat.eqb f 0%float)
  | JStr s => negb (String.eqb s "")
  | JArr l => negb (bool_decide (l = []))
  | JObj m => negb (bool_decide (m = ∅))
  end.

(** [d.get(key)]: only a dict has the method; a missing key gives [None]. *)
Definition get (d : json) (key : string) : result json :=
  match d with
  | JObj m => Ok (default JNull (m !! key))
  | _ => Raise (AttributeError "get")
  end.

(** [d[key]] with a string key. *)
Definition getitem (d : json) (key : string) : result json :=
  match d with
  | JObj m =>
      match m !! key with
      | Some v => Ok v
      | None => Raise (KeyError key)
      end
  | _ => Raise TypeError
  end.

(** [xs or []] for an optional list argument. *)
Definition or_list {A} (xs : option (list A)) : list A :=
  match xs with
  | Some (x :: l) => x :: l
  | _ => []
  end.

(** [d or {}] for an optional dict argument. *)
Definition or_dict (d : option (gmap string json)) : gmap string json :=
  match d with
  | Some m => if bool_decide (m = ∅) then ∅ else m
  | None => ∅
  end.

Section Str.
(** [repr] of floats and containers is the interpreter's business. *)
Variable repr : json -> string.

(** [str(v)], which is what an f-string field [{v}] expands to. *)
Definition str (v : json) : string :=
  match v with
  | JNull => "None"
  | JBool true => "True"
  | JBool false => "False"
  | JInt z => pretty z
  | JStr s => s
  | JFloat _ | JArr _ | JObj _ => repr v
  end.
End Str.

End Py.

(** ** The transport (aiohttp) *)

Inductive verb : Type := GET | POST.

Record request : Type := Request {
  method : verb;
  url : string;
  headers : option (gmap string string);  (* the [headers=] keyword, if given *)
  payload : option json                   (* the [json=] keyword, if given *)
}.

Inductive body : Type :=
| NotJsonType        (* Content-Type other than JSON *)
| Malformed          (* JSON content type, text that does not parse *)
| Json (data : json).

Record response : Type := Response {
  status : Z;
  content : body
}.

Inductive reply : Type :=
| Unreachable                   (* connection refused, reset, DNS failure *)
| Answer (r : response).

Record ClientSession : Type := { closed : bool }.

(** [ClientSession.close] does its work once; afterwards it is a no-op. *)
Definition ClientSession_close (cs : ClientSession) : ClientSession :=
  if closed cs then cs else {| closed := true |}.

(** ** Client object and program state *)

Record YYC3Client : Type := {
  base_url : string;
  token : json;                         (* [None] until a login stores one *)
  session : option ClientSession
}.

Record state : Type := {
  self : YYC3Client;
  sent : list request;                  (* requests handed to the transport *)
  stdout : list string                  (* lines printed, oldest first *)
}.

(** State and exception monad: an exception keeps the effects made so far. *)
Definition M (A : Type) : Type := state -> result A * state.

Definition ret {A} (a : A) : M A := fun s => (Ok a, s).

Definition bind {A B} (m : M A) (k : A -> M B) : M B :=
  fun s =>
    match m s with
    | (Ok a, s') => k a s'
    | (Raise e, s') => (Raise e, s')
    end.

Definition raise {A} (e : exn) : M A := fun s => (Raise e, s).

Definition lift {A} (r : result A) : M A := fun s => (r, s).

Declare Scope py_scope.
Delimit Scope py_scope with py.
Notation "'let!' x ':=' m 'in' k" := (bind m (fun x => k))
  (at level 10, x name, m at level 100, k at level 200) : py_scope.
Notation "m ';;' k" := (bind m (fun _ => k))
  (at level 100, k at level 200, right associativity) : py_scope.
Open Scope py_scope.

Definition get_self : M YYC3Client := fun s => (Ok (self s), s).

Definition set_token (t : json) : M unit :=
  fun s =>
    (Ok tt,
     {| self := {| base_url := base_url (self s);
                   token := t;
                   session := session (self s) |};
        sent := sent s;
        stdout := stdout s |}).

Definition set_session (cs : option ClientSession) : M unit :=
  fun s =>
    (Ok tt,
     {| self := {| base_url := base_url (self s);
                   token := token (self s);
                   session := cs |};
        sent := sent s;
        stdout := stdout s |}).

Definition print (line : string) : M unit :=
  fun s =>
    (Ok tt, {| self := self s; sent := sent s; stdout := stdout s ++ [line] |}).

(** ** Coroutines

    Every method of the client awaits the network exactly once, inside
    [async with self.session.post(...)] or [.get(...)].  [send] runs the
    method up to the point where the request has been handed to the
    transport; [recv] resumes it with what came back. *)

Record coroutine (A : Type) : Type := {
  send : M reply;
  recv : reply -> M A
}.
Arguments send {A} c.
Arguments recv {A} c.

(** [await co] with nothing else scheduled in between. *)
Definition await {A} (co : coroutine A) : M A :=
  let! r := send co in recv co r.

(** Entering [async with ... as response:] once the reply is in. *)
Definition arrive {A} (k : response -> M A) (r : reply) : M A :=
  match r with
  | Unreachable => raise ClientConnectionError
  | Answer resp => k resp
  end.

(** [await response.json()] *)
Definition response_json (resp : response) : M json :=
  match content resp with
  | NotJsonType => raise ContentTypeError
  | Malformed => raise JSONDecodeError
  | Json data => ret data
  end.

Definition attr_of (v : verb) : string :=
  match v with GET => "get" | POST => "post" end.

Section Client.

(** The remote service: its reply to a request may depend on the requests
    the transport was handed before. *)
Variable srv : list request -> request -> reply.

(** The interpreter's [repr], see [Py.str]. *)
Variable repr : json -> string.

(** [self.session.post(...)] / [self.session.get(...)]: [self.session] is
    [None] outside the scope, and aiohttp refuses a closed session. *)
Definition session_request (rq : request) : M reply :=
  fun s =>
    match session (self s) with
    | None => (Raise (AttributeError (attr_of (method rq))), s)
    | Some cs =>
        if closed cs then (Raise (RuntimeError "Session is closed"), s)
        else (Ok (srv (sent s) rq),
              {| self := self s; sent := sent s ++ [rq]; stdout := stdout s |})
    end.

Definition __init__ (base : string) : YYC3Client :=
  {| base_url := base; token := JNull; session := None |}.

Definition default_base_url : string := "http://localhost:3200".

Definition __aenter__ : M unit :=
  set_session (Some {| closed := false |}).

Definition __aexit__ : M unit :=
  let! c := get_self in
  match session c with
  | Some cs => set_session (Some (ClientSession_close cs))
  | None => ret tt
  end.

(** The scope has been entered and not left. *)
Definition session_open (c : YYC3Client) : bool :=
  match session c with
  | Some cs => negb (closed cs)
  | None => false
  end.

(** *** login *)

Definition login_request (c : YYC3Client) (email password : string) : request :=
  {| method := POST;
     url := base_url c +:+ "/api/v1/auth/login";
     headers := None;
     payload := Some (JObj {[ "email" := JStr email;
                              "password" := JStr password ]}) |}.

Definition login_recv : reply -> M json :=
  arrive (fun response =>
    let! data := response_json response in
    let! success := lift (Py.get data "success") in
    if Py.truthy success then
      let! d := lift (Py.getitem data "data") in
      let! t := lift (Py.getitem d "token") in
      set_token t ;;
      print "✅ 登录成功，令牌已保存" ;;
      ret data
    else
      raise (Exception "登录失败")).

Definition login (email password : string) : coroutine json :=
  {| send := let! c := get_self in
             session_request (login_request c email password);
     recv := login_recv |}.

(** *** The endpoint methods *)

Definition _get_headers (c : YYC3Client) : gmap string string :=
  {[ "Content-Type" := "application/json";
     "Authorization" := "Bearer " +:+ Py.str repr (token c) ]}.

(** The four endpoint methods end alike: decode, print, return. *)
Definition decode_and_return (done : string) : reply -> M json :=
  arrive (fun response =>
    let! data := response_json response in
    print done ;;
    ret data).

Definition reason_request (c : YYC3Client) (context : string)
    (constraints objectives : option (list string))
    (options : option (gmap string json)) : request :=
  {| method := POST;
     url := base_url c +:+ "/api/v1/engine/reason";
     headers := Some (_get_headers c);
     payload := Some (JObj
       {[ "context" := JStr context;
          "constraints" := JArr (JStr <$> Py.or_list constraints);
          "objectives" := JArr (JStr <$> Py.or_list objectives);
          "options" := JObj (Py.or_dict options) ]}) |}.

Definition reason (context : string)
    (constraints objectives : option (list string))
    (options : option (gmap string json)) : coroutine json :=
  {| send := print "🧠 发起智能推理请求..." ;;
             let! c := get_self in
             session_request
               (reason_request c context constraints objectives options);
     recv := decode_and_return "✅ 推理完成" |}.

Definition generate_text_request (c : YYC3Client) (prompt : string)
    (max_tokens : Z) : request :=
  {| method := POST;
     url := base_url c +:+ "/api/v1/model/generate";
     headers := Some (_get_headers c);
     payload := Some (JObj {[ "prompt" := JStr prompt;
                              "maxTokens" := JInt max_tokens ]}) |}.

Definition generate_text (prompt : string) (max_tokens : Z) : coroutine json :=
  {| send := print "🤖 发起文本生成请求..." ;;
             let! c := get_self in
             session_request (generate_text_request c prompt max_tokens);
     recv := decode_and_return "✅ 生成完成" |}.

Definition get_metrics_request (c : YYC3Client) : request :=
  {| method := GET;
     url := base_url c +:+ "/api/v1/analytics/metrics";
     headers := Some (_get_headers c);
     payload := None |}.

Definition get_metrics : coroutine json :=
  {| send := print "📊 获取系统指标..." ;;
             let! c := get_self in
             session_request (get_metrics_request c);
     recv := decode_and_return "✅ 指标获取完成" |}.

Definition get_learning_data_request (c : YYC3Client) : request :=
  {| method := GET;
     url := base_url c +:+ "/api/v1/learning/data";
     headers := Some (_get_headers c);
     payload := None |}.

Definition get_learning_data : coroutine json :=
  {| send := print "🧠 获取学习数据..." ;;
             let! c := get_self in
             session_request (get_learning_data_request c);
     recv := decode_and_return "✅ 学习数据获取完成" |}.

(** A call of one of the four methods that attach [_get_headers()], with
    its arguments. *)
Inductive call : Type :=
| Reason (context : string) (constraints objectives : option (list string))
         (options : option (gmap string json))
| GenerateText (prompt : string) (max_tokens : Z)
| GetMetrics
| GetLearningData.

Definition invoke (k : call) : coroutine json :=
  match k with
  | Reason ctx cs os opts => reason ctx cs os opts
  | GenerateText prompt n => generate_text prompt n
  | GetMetrics => get_metrics
  | GetLearningData => get_learning_data
  end.

Definition request_of (k : call) (c : YYC3Client) : request :=
  match k with
  | Reason ctx cs os opts => reason_request c ctx cs os opts
  | GenerateText prompt n => generate_text_request c prompt n
  | GetMetrics => get_metrics_request c
  | GetLearningData => get_learning_data_request c
  end.

(** The replies to the requests of [ks], handed to the transport in this
    order by client [c] when the log stands at [log]. *)
Fixpoint replies_to (ks : list call) (log : list request) (c : YYC3Client)
  : list reply :=
  match ks with
  | [] => []
  | k :: ks' =>
      srv log (request_of k c) :: replies_to ks' (log ++ [request_of k c]) c
  end.

(** *** Scoped acquisition *)

(** [async with YYC3Client(base) as client: body]: [__aexit__] runs on
    the way out whether [body] returned or raised. *)
Definition async_with_client {A} (base : string) (body : M A) : M A :=
  fun s0 =>
    let s := {| self := __init__ base; sent := sent s0; stdout := stdout s0 |} in
    match __aenter__ s with
    | (Raise e, s1) => (Raise e, s1)
    | (Ok _, s1) =>
        let '(o, s2) := body s1 in
        match __aexit__ s2 with
        | (Ok _, s3) => (o, s3)
        | (Raise e, s3) => (Raise e, s3)
        end
    end.

End Client.

(** ** [asyncio.gather]

    The awaitables are wrapped into tasks in argument order and each task
    runs to its suspension point when the loop next turns, so the requests
    leave in argument order.  From then on every turn of the loop resumes
    the tasks whose reply has come in; [sched] lists, turn by turn, the
    indices of the tasks resumed, in the order they are resumed.  An index
    that is out of range or whose task has settled is skipped, and tasks
    the schedule never names complete afterwards, one a turn, in index
    order.  [return_exceptions] is left at its default [False]: the first
    exception to surface is the one raised to the awaiter.  The awaiter is
    not resumed at once: the callback that hands it the exception runs in
    the next turn and the awaiter in the turn after, so the tasks resumed
    later in the turn of the failure and in the turn that follows settle
    first, whatever their outcome.  This holds as well when a task fails
    before it has sent anything: the turn in which the tasks start is then
    the turn of the failure.  No task is cancelled. *)

Inductive task (A : Type) : Type :=
| Running (r : reply)           (* suspended, request on the wire *)
| Finished (o : result A).      (* returned or raised *)
Arguments Running {A} r.
Arguments Finished {A} o.

Record gathered (A : Type) : Type := {
  outcome : option (result (list A));   (* [None]: the awaiter is still waiting *)
  tasks : list (task A);                (* the tasks when the awaiter resumes *)
  final : state
}.
Arguments outcome {A} g.
Arguments tasks {A} g.
Arguments final {A} g.

Fixpoint start_all {A} (cos : list (coroutine A)) (s : state)
  : list (task A) * state :=
  match cos with
  | [] => ([], s)
  | co :: cos' =>
      let '(o, s1) := send co s in
      let t := match o with
               | Ok r => Running r
               | Raise e => Finished (Raise e)
               end in
      let '(ts, s2) := start_all cos' s1 in
      (t :: ts, s2)
  end.

Fixpoint first_exception {A} (ts : list (task A)) : option exn :=
  match ts with
  | [] => None
  | Finished (Raise e) :: _ => Some e
  | _ :: ts' => first_exception ts'
  end.

Fixpoint results {A} (ts : list (task A)) : option (list A) :=
  match ts with
  | [] => Some []
  | Finished (Ok a) :: ts' => (a ::.) <$> results ts'
  | _ :: _ => None
  end.

(** One turn of the loop: the suspended tasks it names are resumed, in the
    order given.  Also yields the first exception raised in the turn. *)
Fixpoint run_turn {A} (cos : list (coroutine A)) (turn : list nat)
    (ts : list (task A)) (s : state) : list (task A) * state * option exn :=
  match turn with
  | [] => (ts, s, None)
  | i :: turn' =>
      match cos !! i, ts !! i with
      | Some co, Some (Running r) =>
          let '(o, s') := recv co r s in
          let '(ts', s'', later) :=
            run_turn cos turn' (<[i := Finished o]> ts) s' in
          (ts', s'',
           match o with
           | Raise e => Some e
           | Ok _ => later
           end)
      | _, _ => run_turn cos turn' ts s
      end
  end.

Fixpoint drive {A} (cos : list (coroutine A)) (sched : list (list nat))
    (ts : list (task A)) (s : state) : gathered A :=
  match sched with
  | [] => {| outcome := Ok <$> results ts; tasks := ts; final := s |}
  | turn :: sched' =>
      let '(ts1, s1, raised) := run_turn cos turn ts s in
      match raised with
      | None => drive cos sched' ts1 s1
      | Some e =>
          let '(ts2, s2, _) :=
            run_turn cos (default [] (head sched')) ts1 s1 in
          {| outcome := Some (Raise e); tasks := ts2; final := s2 |}
      end
  end.

Definition gather {A} (cos : list (coroutine A)) (sched : list (list nat))
    (s : state) : gathered A :=
  let '(ts, s1) := start_all cos s in
  match first_exception ts with
  | Some e =>
      let '(ts2, s2, _) := run_turn cos (default [] (head sched)) ts s1 in
      {| outcome := Some (Raise e); tasks := ts2; final := s2 |}
  | None =>
      drive cos (sched ++ ((fun i => [i]) <$> seq 0 (length cos))) ts s1
  end.

Section Examples.

Variable srv : list request -> request -> reply.
Variable repr : json -> string.

(** The [tasks] list of [advanced_example]: three reasoning requests,
    [i] ranging over [range(3)]. *)
Definition advanced_example_calls : list call :=
  (fun i : Z =>
     Reason ("优化项目开发流程 - 场景" +:+ Py.str repr (JInt i))
            (Some ["时间限制"; "预算限制"])
            (Some ["效率提升"; "质量保证"])
            None)
  <$> [0; 1; 2]%Z.

Definition advanced_example_tasks : list (coroutine json) :=
  invoke srv repr <$> advanced_example_calls.

(** [results = await asyncio.gather(...)] over that list. *)
Definition advanced_example_batch (sched : list (list nat)) (s : state)
  : gathered json :=
  gather advanced_example_tasks sched s.

End Examples.

(** ** The example programs *)

(** The line feed of ["\n"]. *)
Definition nl : string := String (Ascii.ascii_of_nat 10) "".

(** [s * n] on strings. *)
Fixpoint str_times (s : string) (n : nat) : string :=
  match n with
  | 0 => ""
  | S n' => s +:+ str_times s n'
  end.

(** [try: body] / [except Exception as e: handler]. *)
Definition try_except {A} (body : M A) (handler : exn -> M A) : M A :=
  fun s =>
    match body s with
    | (Ok a, s') => (Ok a, s')
    | (Raise e, s') => handler e s'
    end.

(** [try: body] / [except Exception as e: handler] / [else: orelse]; what
    [orelse] raises is not caught. *)
Definition try_except_else {A B} (body : M A) (handler : exn -> M B)
    (orelse : A -> M B) : M B :=
  fun s =>
    match body s with
    | (Ok a, s') => orelse a s'
    | (Raise e, s') => handler e s'
    end.

(** [await asyncio.gather(...)] as a step of a program.  [gather] always has
    an outcome, so the default is never used. *)
Definition await_gather {A} (cos : list (coroutine A))
    (sched : list (list nat))
  : M (list A) :=
  fun s => (default (Ok []) (outcome (gather cos sched s)),
            final (gather cos sched s)).

(** [v[k1][k2][k3]] *)
Definition getitem3 (v : json) (k1 k2 k3 : string) : M json :=
  let! a := lift (Py.getitem v k1) in
  let! b := lift (Py.getitem a k2) in
  lift (Py.getitem b k3).

Section Programs.

Variable srv : list request -> request -> reply.
Variable repr : json -> string.

(** [json.dumps(v, indent=2, ensure_ascii=False)] *)
Variable dumps : json -> string.

(** [str(e)] where the interpreter or aiohttp words the message. *)
Variable message : exn -> string.

(** [str(e)]: the argument an exception was raised with, or for a
    [KeyError] its [repr]. *)
Definition str_exn (e : exn) : string :=
  match e with
  | Exception msg => msg
  | RuntimeError msg => msg
  | KeyError key => repr (JStr key)
  | _ => message e
  end.

Definition basic_example : M unit :=
  print ("=== YYC³ Python SDK 基础使用示例 ===" +:+ nl) ;;
  async_with_client "http://localhost:3200"
    (await (login srv "user@example.com" "your-password") ;;
     let! reasoning_result :=
       await (reason srv repr "优化项目开发流程"
                (Some ["时间限制"; "预算限制"])
                (Some ["效率提升"; "质量保证"])
                (Some {[ "depth" := JStr "deep"; "timeout" := JInt 30000 ]})) in
     print (nl +:+ "📊 推理结果:") ;;
     (let! v := getitem3 reasoning_result "data" "result" "conclusion" in
      print ("结论: " +:+ Py.str repr v)) ;;
     (let! v := getitem3 reasoning_result "data" "result" "confidence" in
      print ("置信度: " +:+ Py.str repr v)) ;;
     (let! v := getitem3 reasoning_result "data" "metadata" "processingTime" in
      print ("处理时间: " +:+ Py.str repr v +:+ "ms")) ;;
     (let! v := getitem3 reasoning_result "data" "metadata" "tokensUsed" in
      print ("使用Token: " +:+ Py.str repr v)) ;;
     let! generation_result :=
       await (generate_text srv repr "请简述敏捷开发的核心原则" 500) in
     print (nl +:+ "🤖 生成结果:") ;;
     (let! d := lift (Py.getitem generation_result "data") in
      let! v := lift (Py.getitem d "text") in
      print (Py.str repr v)) ;;
     let! metrics := await (get_metrics srv repr) in
     print (nl +:+ "📈 系统指标:") ;;
     print (dumps metrics) ;;
     let! learning_data := await (get_learning_data srv repr) in
     print (nl +:+ "🧠 学习数据:") ;;
     print (dumps learning_data)).

(** The loop over [enumerate(results, 1)], from index [i]. *)
Fixpoint report_results (i : Z) (results : list json) : M unit :=
  match results with
  | [] => ret tt
  | result :: rest =>
      print (nl +:+ "场景 " +:+ Py.str repr (JInt i) +:+ ":") ;;
      (let! v := getitem3 result "data" "result" "conclusion" in
       print ("  结论: " +:+ Py.str repr v)) ;;
      (let! v := getitem3 result "data" "result" "confidence" in
       print ("  置信度: " +:+ Py.str repr v)) ;;
      report_results (i + 1) rest
  end.

Definition advanced_example (sched : list (list nat)) : M unit :=
  print ("=== YYC³ Python SDK 高级使用示例 ===" +:+ nl) ;;
  async_with_client "http://localhost:3200"
    (await (login srv "user@example.com" "your-password") ;;
     let! results := await_gather (advanced_example_tasks srv repr) sched in
     print (nl +:+ "📊 批量推理结果:") ;;
     report_results 1 results ;;
     let! metrics := await (get_metrics srv repr) in
     print (nl +:+ "📈 系统指标: " +:+ dumps metrics)).

Definition error_handling_example : M unit :=
  print ("=== YYC³ Python SDK 错误处理示例 ===" +:+ nl) ;;
  async_with_client "http://localhost:3200"
    (try_except
       (await (login srv "invalid@example.com" "wrong-password") ;; ret tt)
       (fun e => print ("❌ 登录失败: " +:+ str_exn e)) ;;
     try_except_else
       (await (login srv "user@example.com" "your-password"))
       (fun e => print ("❌ 登录失败: " +:+ str_exn e))
       (fun _ =>
          print "✅ 登录成功" ;;
          try_except
            (let! result := await (reason srv repr "测试推理"
                                     (Some []) (Some []) None) in
             let! v := getitem3 result "data" "result" "conclusion" in
             print ("✅ 推理成功: " +:+ Py.str repr v))
            (fun e => print ("❌ 推理失败: " +:+ str_exn e)))).

(** [main]; [sched] is the completion order of the batch in
    [advanced_example]. *)
Definition main (sched : list (list nat)) : M unit :=
  basic_example ;;
  print (nl +:+ str_times "=" 50 +:+ nl) ;;
  advanced_example sched ;;
  print (nl +:+ str_times "=" 50 +:+ nl) ;;
  error_handling_example.

End Programs.

(** ** Mock services and states for the closed examples *)

(** Stands in for [repr] below; no example formats a float or a container. *)
Definition no_repr (_ : json) : string := "".

Definition answer (code : Z) (m : gmap string json) : reply :=
  Answer {| status := code; content := Json (JObj m) |}.

(** Accepts the login of [a@x.com] with password [p] by token [T1], rejects
    other logins with 401, and answers every other request with
    [{success: true, data: {x: 1}}]. *)
Definition mock_server (_ : list request) (rq : request) : reply :=
  if String.eqb (url rq) "http://localhost:3200/api/v1/auth/login" then
    match payload rq with
    | Some (JObj m) =>
        match m !! "email", m !! "password" with
        | Some (JStr e), Some (JStr p) =>
            if String.eqb e "a@x.com" && String.eqb p "p" then
              answer 200 {[ "success" := JBool true;
                            "data" := JObj {[ "token" := JStr "T1" ]} ]}
            else
              answer 401 {[ "success" := JBool false ]}
        | _, _ => answer 401 {[ "success" := JBool false ]}
        end
    | _ => answer 401 {[ "success" := JBool false ]}
    end
  else
    answer 200 {[ "success" := JBool true;
                  "data" := JObj {[ "x" := JInt 1 ]} ]}.

(** Answers everything with status 500 and a body that carries the success
    marker and a token [T2]. *)
Definition server_500_with_token (_ : list request) (_ : request) : reply :=
  answer 500 {[ "success" := JBool true;
                "data" := JObj {[ "token" := JStr "T2" ]} ]}.

(** Rejects everything: status 500, [{success: false, message: "boom"}]. *)
Definition rejecting_server (_ : list request) (_ : request) : reply :=
  answer 500 {[ "success" := JBool false; "message" := JStr "boom" ]}.

(** Answers every request with the number of requests that came before. *)
Definition counting_server (log : list request) (_ : request) : reply :=
  answer 200 {[ "success" := JBool true;
                "data" := JObj {[ "n" := JInt (Z.of_nat (length log)) ]} ]}.

(** Drops the second request it is handed and answers the others. *)
Definition second_request_lost (log : list request) (rq : request) : reply :=
  if (length log =? 1)%nat then Unreachable else counting_server log rq.

(** Is down: no request gets through. *)
Definition unreachable_server (_ : list request) (_ : request) : reply :=
  Unreachable.

(** Inside the scope, before any login. *)
Definition opened : state :=
  {| self := {| base_url := default_base_url; token := JNull;
                session := Some {| closed := false |} |};
     sent := [];
     stdout := [] |}.

(** Inside the scope, with token [t] stored by an earlier login. *)
Definition logged_in (t : string) : state :=
  {| self := {| base_url := default_base_url; token := JStr t;
                session := Some {| closed := false |} |};
     sent := [];
     stdout := [] |}.

(** ** Notions the statements below use *)

(** The line each method prints before it sends, and after it has decoded. *)
Definition line_before (k : call) : string :=
  match k with
  | Reason _ _ _ _ => "🧠 发起智能推理请求..."
  | GenerateText _ _ => "🤖 发起文本生成请求..."
  | GetMetrics => "📊 获取系统指标..."
  | GetLearningData => "🧠 获取学习数据..."
  end.

Definition line_after (k : call) : string :=
  match k with
  | Reason _ _ _ _ => "✅ 推理完成"
  | GenerateText _ _ => "✅ 生成完成"
  | GetMetrics => "✅ 指标获取完成"
  | GetLearningData => "✅ 学习数据获取完成"
  end.

(** What a reply turns into, whatever its status and whatever it says. *)
Definition decoded (r : reply) : result json :=
  match r with
  | Unreachable => Raise ClientConnectionError
  | Answer resp =>
      match content resp with
      | NotJsonType => Raise ContentTypeError
      | Malformed => Raise JSONDecodeError
      | Json data => Ok data
      end
  end.

(** A task of a batch of endpoint calls, seen against the reply its request
    got: still suspended on that reply, or settled with what it decodes to. *)
Definition settled_as (t : task json) (r : reply) : Prop :=
  t = Running r \/ t = Finished (decoded r).

(** A step of a program run inside the scope of a client at [base]: it
    leaves the scope entered and the address alone, and [Q] relates its
    outcome to the URLs of the requests it has handed over. *)
Definition runs (base : string) {A} (m : M A)
    (Q : result A -> list string -> Prop) : Prop :=
  forall s,
    session_open (self s) = true ->
    base_url (self s) = base ->
    session_open (self (snd (m s))) = true /\
    base_url (self (snd (m s))) = base /\
    exists us, url <$> sent (snd (m s)) = (url <$> sent s) ++ us /\
               Q (fst (m s)) us.

(** The requests went out block by block, and all blocks if the step
    returned. *)
Definition in_steps {A} (blocks : list (list string)) (o : result A)
    (us : list string) : Prop :=
  exists n, n <= length blocks /\
            us = concat (take n blocks) /\
            forall a, o = Ok a -> n = length blocks.




(** * Properties *)

Section Properties.

Variable srv : list request -> request -> reply.
Variable repr : json -> string.

Local Abbreviation invoke := (invoke srv repr).
Local Abbreviation request_of := (request_of repr).

(** ** One dispatch *)

Lemma session_request_open (rq : request) (s : state) :
  session_open (self s) = true ->
  session_request srv rq s =
    (Ok (srv (sent s) rq),
     {| self := self s; sent := sent s ++ [rq]; stdout := stdout s |}).
Proof.
  unfold session_open, session_request.
  destruct (session (self s)) as [cs|]; [|discriminate].
  destruct (closed cs); [discriminate|reflexivity].
Qed.

Lemma session_request_frame (rq : request) (s : state) :
  self (snd (session_request srv rq s)) = self s /\
  stdout (snd (session_request srv rq s)) = stdout s /\
  (sent (snd (session_request srv rq s)) = sent s \/
   sent (snd (session_request srv rq s)) = sent s ++ [rq]).
Proof.
  unfold session_request.
  destruct (session (self s)) as [cs|]; [|simpl; auto].
  destruct (closed cs); simpl; auto.
Qed.

Lemma send_invoke (k : call) (s : state) :
  send (invoke k) s =
    session_request srv (request_of k (self s))
      {| self := self s; sent := sent s; stdout := stdout s ++ [line_before k] |}.
Proof. destruct k; reflexivity. Qed.

Lemma recv_invoke (k : call) :
  recv (invoke k) = decode_and_return (line_after k).
Proof. destruct k; reflexivity. Qed.

Lemma decode_and_return_spec (done : string) (r : reply) (s : state) :
  fst (decode_and_return done r s) = decoded r /\
  self (snd (decode_and_return done r s)) = self s /\
  sent (snd (decode_and_return done r s)) = sent s.
Proof.
  destruct r as [|[st [| |d]]]; simpl; auto.
Qed.

Lemma await_invoke_open (k : call) (s : state) :
  session_open (self s) = true ->
  fst (await (invoke k) s) = decoded (srv (sent s) (request_of k (self s))) /\
  self (snd (await (invoke k) s)) = self s /\
  sent (snd (await (invoke k) s)) = sent s ++ [request_of k (self s)].
Proof.
  intros Hopen. unfold await, bind.
  rewrite send_invoke, session_request_open by exact Hopen.
  rewrite recv_invoke.
  match goal with
  | |- context [decode_and_return ?l ?r ?s'] =>
      destruct (decode_and_return_spec l r s') as (Ho & Hself & Hsent)
  end.
  rewrite Ho, Hself, Hsent. auto.
Qed.

Lemma await_invoke_frame (k : call) (s : state) :
  self (snd (await (invoke k) s)) = self s /\
  (sent (snd (await (invoke k) s)) = sent s \/
   sent (snd (await (invoke k) s)) = sent s ++ [request_of k (self s)]).
Proof.
  unfold await, bind. rewrite send_invoke.
  match goal with
  | |- context [session_request srv ?rq ?s'] =>
      destruct (session_request_frame rq s') as (Hself & _ & Hsent);
      destruct (session_request srv rq s') as [[r|e] s1] eqn:E
  end; simpl in *.
  - rewrite recv_invoke.
    destruct (decode_and_return_spec (line_after k) r s1) as (_ & Hself' & Hsent').
    rewrite Hself', Hsent'. auto.
  - auto.
Qed.

(** C9: a dispatch of [reason], [generate_text], [get_metrics] or
    [get_learning_data] leaves the client object, and so its token slot, as
    it found it, whether it returns or raises; and it hands the transport at
    most one request, so nothing is retried. *)
Theorem dispatch_keeps_token_and_sends_at_most_once (k : call) (s : state) :
  token (self (snd (await (invoke k) s))) = token (self s) /\
  self (snd (await (invoke k) s)) = self s /\
  (sent (snd (await (invoke k) s)) = sent s \/
   sent (snd (await (invoke k) s)) = sent s ++ [request_of k (self s)]).
Proof.
  destruct (await_invoke_frame k s) as (Hself & Hsent).
  rewrite Hself. auto.
Qed.

(** C10, as the code has it: with an empty token slot [_get_headers] still
    produces an [Authorization] header, the interpolation of [None], and
    every endpoint method builds its request with it.  Whether that request
    leaves depends on the session alone: inside the scope it is handed to
    the transport; outside it the method fails locally on [self.session]
    and nothing is sent. *)
Theorem empty_slot_sends_bearer_none (k : call) (s : state) :
  token (self s) = JNull ->
  (_get_headers repr (self s) !! "Authorization" = Some "Bearer None" /\
   _get_headers repr (self s) =
     {[ "Content-Type" := "application/json";
        "Authorization" := "Bearer None" ]} /\
   headers (request_of k (self s)) = Some (_get_headers repr (self s))) /\
  (session_open (self s) = true ->
   fst (send (invoke k) s) = Ok (srv (sent s) (request_of k (self s))) /\
   sent (snd (send (invoke k) s)) = sent s ++ [request_of k (self s)]) /\
  (session_open (self s) = false ->
   fst (await (invoke k) s) =
     Raise match session (self s) with
           | None => AttributeError (attr_of (method (request_of k (self s))))
           | Some _ => RuntimeError "Session is closed"
           end /\
   sent (snd (await (invoke k) s)) = sent s).
Proof.
  intros Htok.
  assert (Hh : _get_headers repr (self s) =
    {[ "Content-Type" := "application/json"; "Authorization" := "Bearer None" ]})
    by (unfold _get_headers; rewrite Htok; reflexivity).
  split; [|split].
  - split; [rewrite Hh; reflexivity|].
    split; [exact Hh|]. destruct k; reflexivity.
  - intros Hopen.
    rewrite send_invoke, session_request_open by exact Hopen. auto.
  - intros Hclosed. unfold await, bind. rewrite send_invoke.
    unfold session_request, session_open in *. cbn [self sent stdout].
    destruct (session (self s)) as [[[|]]|]; try discriminate; cbn; done.
Qed.

(** C1, as the code has it: with no token stored, a call inside the scope is
    not stopped locally.  Its request reaches the transport, and the call
    returns or raises according to the reply alone. *)
Theorem call_without_token_is_dispatched (k : call) (s : state) :
  token (self s) = JNull ->
  session_open (self s) = true ->
  sent (snd (await (invoke k) s)) = sent s ++ [request_of k (self s)] /\
  fst (await (invoke k) s) = decoded (srv (sent s) (request_of k (self s))).
Proof.
  intros _ Hopen.
  destruct (await_invoke_open k s Hopen) as (Ho & _ & Hsent). auto.
Qed.

(** C4, as the code has it: a dispatch looks neither at the HTTP status nor
    at the success marker.  Whenever the body decodes, the decoded body is
    returned as it is. *)
Theorem dispatch_returns_any_decoded_body
    (k : call) (s : state) (code : Z) (data : json) :
  session_open (self s) = true ->
  srv (sent s) (request_of k (self s)) =
    Answer {| status := code; content := Json data |} ->
  fst (await (invoke k) s) = Ok data.
Proof.
  intros Hopen Hr.
  destruct (await_invoke_open k s Hopen) as (Ho & _).
  rewrite Ho, Hr. reflexivity.
Qed.

(** ** Login *)

Lemma await_login_open (email password : string) (s : state) :
  session_open (self s) = true ->
  await (login srv email password) s =
    login_recv (srv (sent s) (login_request (self s) email password))
      {| self := self s;
         sent := sent s ++ [login_request (self s) email password];
         stdout := stdout s |}.
Proof.
  intros Hopen. unfold await, login; cbn [send recv].
  unfold bind at 1 2, get_self.
  rewrite session_request_open by exact Hopen. reflexivity.
Qed.

Lemma login_recv_rejected (code : Z) (m : gmap string json) (s : state) :
  Py.truthy (default JNull (m !! "success")) = false ->
  login_recv (Answer {| status := code; content := Json (JObj m) |}) s =
    (Raise (Exception "登录失败"), s).
Proof.
  intros Hfalse. unfold login_recv, arrive, response_json, bind, lift, ret.
  cbn [content Py.get]. rewrite Hfalse. reflexivity.
Qed.

Lemma login_recv_accepted (code : Z) (m d : gmap string json) (t : json)
    (s : state) :
  Py.truthy (default JNull (m !! "success")) = true ->
  m !! "data" = Some (JObj d) ->
  d !! "token" = Some t ->
  login_recv (Answer {| status := code; content := Json (JObj m) |}) s =
    (Ok (JObj m),
     {| self := {| base_url := base_url (self s); token := t;
                   session := session (self s) |};
        sent := sent s;
        stdout := stdout s ++ ["✅ 登录成功，令牌已保存"] |}).
Proof.
  intros Htrue Hd Ht. unfold login_recv, arrive, response_json, bind, lift, ret.
  cbn [content Py.get Py.getitem]. rewrite Htrue, Hd.
  cbn [Py.getitem]. rewrite Ht. reflexivity.
Qed.

(** [login_recv] either raises with the state as it was, or has been
    answered by a dict with a truthy marker and a token under [data]. *)
Lemma login_recv_cases (r : reply) (s : state) :
  (exists e, login_recv r s = (Raise e, s)) \/
  (exists code m d t,
     r = Answer {| status := code; content := Json (JObj m) |} /\
     Py.truthy (default JNull (m !! "success")) = true /\
     m !! "data" = Some (JObj d) /\
     d !! "token" = Some t).
Proof.
  destruct r as [|[code [| |data]]];
    try (left; eexists; reflexivity).
  destruct data as [|b|z|f|str|l|m];
    try (left; eexists; reflexivity).
  destruct (Py.truthy (default JNull (m !! "success"))) eqn:Hs.
  2:{ left; eexists. apply login_recv_rejected, Hs. }
  unfold login_recv, arrive, response_json, bind, lift, ret.
  cbn [content Py.get Py.getitem]. rewrite Hs.
  destruct (m !! "data") as [dv|] eqn:Hd;
    [|left; eexists; reflexivity].
  destruct dv as [|b|z|f|str|l|d];
    try (left; eexists; reflexivity).
  cbn [Py.getitem].
  destruct (d !! "token") as [t|] eqn:Ht;
    [|left; eexists; reflexivity].
  right. exists code, m, d, t. auto.
Qed.

Lemma send_login_frame (email password : string) (s : state) :
  self (snd (send (login srv email password) s)) = self s /\
  (forall r, fst (send (login srv email password) s) = Ok r ->
             session_open (self s) = true).
Proof.
  unfold login; simpl. unfold bind, get_self, session_request, session_open.
  destruct (session (self s)) as [cs|]; simpl; [|split; [auto|discriminate]].
  destruct (closed cs); simpl; split; auto; discriminate.
Qed.

(** A login that raises, for whatever reason, leaves the client as it was. *)
Lemma login_raise_frame (email password : string) (s : state) (e : exn) :
  fst (await (login srv email password) s) = Raise e ->
  self (snd (await (login srv email password) s)) = self s.
Proof.
  unfold await, bind.
  destruct (send_login_frame email password s) as (Hself & _).
  destruct (send (login srv email password) s) as [[r|e'] s1]; simpl in *;
    [|auto].
  destruct (login_recv_cases r s1) as [(e' & He)|(code & m & d & t & -> & Hs & Hd & Ht)].
  - rewrite He. simpl. auto.
  - rewrite (login_recv_accepted code m d t s1 Hs Hd Ht). discriminate.
Qed.

(** C2, as the code has it: a login answered by a dict without a truthy
    success marker raises [Exception("登录失败")], whatever the HTTP status,
    and the client object keeps the token it had, so the next call sends the
    same headers as before. *)
Theorem rejected_login_keeps_token
    (email password : string) (s : state) (code : Z) (m : gmap string json) :
  session_open (self s) = true ->
  srv (sent s) (login_request (self s) email password) =
    Answer {| status := code; content := Json (JObj m) |} ->
  Py.truthy (default JNull (m !! "success")) = false ->
  fst (await (login srv email password) s) = Raise (Exception "登录失败") /\
  token (self (snd (await (login srv email password) s))) = token (self s) /\
  forall k : call,
    headers (request_of k (self (snd (await (login srv email password) s)))) =
    headers (request_of k (self s)).
Proof.
  intros Hopen Hr Hfalse.
  assert (Hraise : fst (await (login srv email password) s) =
                   Raise (Exception "登录失败")).
  { rewrite await_login_open by exact Hopen.
    by rewrite Hr, login_recv_rejected by exact Hfalse. }
  rewrite (login_raise_frame email password s _ Hraise). auto.
Qed.

(** C5, as the code has it: a login answered by [{success: <truthy>,
    data: {token: t, ...}, ...}] has posted [{email, password}] to the login
    path without headers, stores [t] over whatever the slot held, and
    returns the whole decoded body. *)
Theorem login_stores_token_and_returns_body
    (email password : string) (s : state) (code : Z)
    (m d : gmap string json) (t : json) :
  session_open (self s) = true ->
  srv (sent s) (login_request (self s) email password) =
    Answer {| status := code; content := Json (JObj m) |} ->
  Py.truthy (default JNull (m !! "success")) = true ->
  m !! "data" = Some (JObj d) ->
  d !! "token" = Some t ->
  login_request (self s) email password =
    {| method := POST;
       url := base_url (self s) +:+ "/api/v1/auth/login";
       headers := None;
       payload := Some (JObj {[ "email" := JStr email;
                                "password" := JStr password ]}) |} /\
  await (login srv email password) s =
    (Ok (JObj m),
     {| self := {| base_url := base_url (self s); token := t;
                   session := session (self s) |};
        sent := sent s ++ [login_request (self s) email password];
        stdout := stdout s ++ ["✅ 登录成功，令牌已保存"] |}).
Proof.
  intros Hopen Hr Hs Hd Ht. split; [reflexivity|].
  rewrite await_login_open by exact Hopen.
  rewrite Hr, (login_recv_accepted code m d t _ Hs Hd Ht). reflexivity.
Qed.

(** What a successful login tells about the states around it. *)
Lemma login_ok_inv (email password : string) (s s1 : state) (body : json) :
  await (login srv email password) s = (Ok body, s1) ->
  session_open (self s) = true /\
  exists m d t,
    body = JObj m /\ m !! "data" = Some (JObj d) /\ d !! "token" = Some t /\
    self s1 = {| base_url := base_url (self s); token := t;
                 session := session (self s) |}.
Proof.
  intros Hlogin.
  assert (Hopen : session_open (self s) = true).
  { destruct (send_login_frame email password s) as (_ & Hopen).
    unfold await, bind in Hlogin.
    destruct (send (login srv email password) s) as [[r|e] s0]; [|discriminate].
    apply (Hopen r). reflexivity. }
  split; [exact Hopen|].
  rewrite await_login_open in Hlogin by exact Hopen.
  match type of Hlogin with
  | login_recv ?r ?s0 = _ =>
      destruct (login_recv_cases r s0)
        as [(e & He)|(code & m & d & t & Hr & Hs & Hd & Ht)]
  end.
  - rewrite He in Hlogin. discriminate.
  - rewrite Hr, (login_recv_accepted code m d t _ Hs Hd Ht) in Hlogin.
    injection Hlogin as <- <-. exists m, d, t. auto.
Qed.

(** C6: after a login that returned a body with the string [tok] at
    [data.token], the next endpoint call goes out with
    [Authorization: Bearer tok] and [Content-Type: application/json], and
    when the service answers it with a JSON body the call returns that
    body. *)
Theorem login_then_call_carries_bearer
    (email password : string) (s s1 : state) (m d : gmap string json)
    (tok : string) (k : call) (code : Z) (data : json) :
  await (login srv email password) s = (Ok (JObj m), s1) ->
  m !! "data" = Some (JObj d) ->
  d !! "token" = Some (JStr tok) ->
  srv (sent s1) (request_of k (self s1)) =
    Answer {| status := code; content := Json data |} ->
  headers (request_of k (self s1)) =
    Some {[ "Content-Type" := "application/json";
            "Authorization" := "Bearer " +:+ tok ]} /\
  sent (snd (await (invoke k) s1)) = sent s1 ++ [request_of k (self s1)] /\
  fst (await (invoke k) s1) = Ok data.
Proof.
  intros Hlogin Hd Ht Hr.
  destruct (login_ok_inv _ _ _ _ _ Hlogin)
    as (Hopen & m' & d' & t & Hm & Hd' & Ht' & Hself).
  injection Hm as <-. rewrite Hd in Hd'. injection Hd' as <-.
  rewrite Ht in Ht'. injection Ht' as <-.
  assert (Hopen1 : session_open (self s1) = true)
    by (rewrite Hself; exact Hopen).
  destruct (await_invoke_open k s1 Hopen1) as (Ho & _ & Hsent).
  split; [|split; [exact Hsent|rewrite Ho, Hr; reflexivity]].
  rewrite Hself. destruct k; reflexivity.
Qed.

End Properties.

(** ** Leaving the scope *)

Lemma aexit_ok (s : state) : fst (__aexit__ s) = Ok tt.
Proof.
  unfold __aexit__, bind, get_self. destruct (session (self s)); reflexivity.
Qed.

Lemma aexit_session (s : state) :
  session (self (snd (__aexit__ s))) = ClientSession_close <$> session (self s).
Proof.
  unfold __aexit__, bind, get_self; cbn [fst snd].
  destruct (session (self s)) eqn:E; cbn; [reflexivity|by rewrite E].
Qed.

Lemma ClientSession_close_closed (cs : ClientSession) :
  closed (ClientSession_close cs) = true.
Proof. unfold ClientSession_close. destruct cs as [[|]]; reflexivity. Qed.

(** C8: [__aexit__] never raises and a second [__aexit__] changes nothing;
    [async with] runs it after the body whether the body returned or raised,
    hands on the body's outcome, and leaves the session closed. *)
Theorem aexit_idempotent_and_runs_on_every_exit
    (A : Type) (base : string) (body : M A) (s : state) :
  fst (__aexit__ s) = Ok tt /\
  __aexit__ (snd (__aexit__ s)) = (Ok tt, snd (__aexit__ s)) /\
  async_with_client base body s =
    (fst (body (snd (__aenter__
       {| self := __init__ base; sent := sent s; stdout := stdout s |}))),
     snd (__aexit__ (snd (body (snd (__aenter__
       {| self := __init__ base; sent := sent s; stdout := stdout s |})))))) /\
  session (self (snd (async_with_client base body s))) =
    ClientSession_close <$>
      session (self (snd (body (snd (__aenter__
        {| self := __init__ base; sent := sent s; stdout := stdout s |}))))) /\
  forall cs : ClientSession, closed (ClientSession_close cs) = true.
Proof.
  assert (Hwith : async_with_client base body s =
    (fst (body (snd (__aenter__
       {| self := __init__ base; sent := sent s; stdout := stdout s |}))),
     snd (__aexit__ (snd (body (snd (__aenter__
       {| self := __init__ base; sent := sent s; stdout := stdout s |}))))))).
  { unfold async_with_client. cbn [__aenter__ set_session snd].
    destruct (body _) as [o s2]. cbn [fst snd].
    pose proof (aexit_ok s2) as Hok.
    destruct (__aexit__ s2) as [[[]|e] s3]; [reflexivity|discriminate]. }
  split; [apply aexit_ok|].
  split.
  { unfold __aexit__, bind, get_self; cbn [fst snd].
    destruct (session (self s)) as [[[|]]|] eqn:E; cbn; rewrite ?E; reflexivity. }
  split; [exact Hwith|].
  split; [|apply ClientSession_close_closed].
  rewrite Hwith. cbn [snd]. apply aexit_session.
Qed.

(** ** Batches *)

Section Gather.

Context {A : Type}.
Implicit Types (cos : list (coroutine A)) (ts : list (task A)).

Lemma start_all_length cos (s : state) :
  length (fst (start_all cos s)) = length cos.
Proof.
  revert s. induction cos as [|co cos IH]; intros s; simpl; [reflexivity|].
  destruct (send co s) as [o s1]. specialize (IH s1).
  destruct (start_all cos s1) as [ts s2]. simpl in *. by rewrite IH.
Qed.

Lemma first_exception_Some ts (e : exn) :
  first_exception ts = Some e -> exists i, ts !! i = Some (Finished (Raise e)).
Proof.
  induction ts as [|t ts IH]; simpl; [discriminate|].
  destruct t as [r|[v|e']]; intros H.
  - destruct (IH H) as [i Hi]. by exists (S i).
  - destruct (IH H) as [i Hi]. by exists (S i).
  - injection H as ->. by exists 0.
Qed.

Lemma first_exception_None ts :
  first_exception ts = None <->
  Forall (fun t => forall e, t <> Finished (Raise e)) ts.
Proof.
  induction ts as [|t ts IH]; simpl; [split; auto|].
  rewrite Forall_cons.
  destruct t as [r|[v|e']].
  - rewrite IH. split; [intros H; split; [intros e; discriminate|done]|by intros [_ ?]].
  - rewrite IH. split; [intros H; split; [intros e; discriminate|done]|by intros [_ ?]].
  - split; [discriminate|]. intros [H _]. by destruct (H e').
Qed.

Lemma results_inv ts (vs : list A) :
  results ts = Some vs -> ts = (fun v => Finished (Ok v)) <$> vs.
Proof.
  revert vs. induction ts as [|t ts IH]; intros vs; simpl.
  - by intros [= <-].
  - destruct t as [r|[v|e]]; try discriminate.
    destruct (results ts) as [vs'|]; [|discriminate].
    intros [= <-]. simpl. by rewrite (IH vs').
Qed.

Lemma results_total ts :
  first_exception ts = None ->
  (forall i r, ts !! i <> Some (Running r)) ->
  exists vs, results ts = Some vs.
Proof.
  induction ts as [|t ts IH]; simpl; [by eexists|].
  intros Hfe Hrun. destruct t as [r|[v|e]].
  - by destruct (Hrun 0 r).
  - destruct IH as [vs Hvs]; [done|intros i r; apply (Hrun (S i) r)|].
    rewrite Hvs. by eexists.
  - discriminate.
Qed.

Lemma first_exception_None_lookup ts (i : nat) (e : exn) :
  first_exception ts = None -> ts !! i <> Some (Finished (Raise e)).
Proof.
  intros Hfe Hi. apply first_exception_None in Hfe.
  by apply (Forall_lookup_1 _ _ _ _ Hfe Hi e).
Qed.

(** A turn of the loop only settles suspended tasks: the table keeps its
    length and its settled entries, the tasks the turn names are no longer
    suspended, and the exception it reports is held by one of them. *)
Lemma run_turn_spec cos (turn : list nat) ts (s : state)
    ts' (s' : state) (raised : option exn) :
  run_turn cos turn ts s = (ts', s', raised) ->
  length ts' = length ts /\
  (forall i o, ts !! i = Some (Finished o) -> ts' !! i = Some (Finished o)) /\
  (length cos = length ts ->
   forall i r, i ∈ turn -> ts' !! i <> Some (Running r)) /\
  (raised = None -> first_exception ts = None -> first_exception ts' = None) /\
  (forall e, raised = Some e -> exists i, ts' !! i = Some (Finished (Raise e))).
Proof.
  revert ts s ts' s' raised.
  induction turn as [|i turn IH]; intros ts s ts' s' raised Hrun.
  { cbn in Hrun. injection Hrun as <- <- <-. repeat split; auto.
    - intros _ i r Hin. by apply elem_of_nil in Hin.
    - discriminate. }
  assert (Hskip : (forall r, ts !! i <> Some (Running r)) \/ cos !! i = None ->
    run_turn cos turn ts s = (ts', s', raised)).
  { intros Hnr. cbn in Hrun. destruct (cos !! i); [|done].
    destruct (ts !! i) as [[r|o]|];
      [destruct Hnr as [Hnr|]; [by destruct (Hnr r)|done]|done|done]. }
  destruct (ts !! i) as [[r|o]|] eqn:Hti.
  - assert (Hi : i < length ts) by (eapply lookup_lt_Some; eauto).
    destruct (cos !! i) as [co|] eqn:Hco.
    2:{ destruct (IH _ _ _ _ _ (Hskip (or_intror eq_refl)))
          as (Hl & Hstay & Hnamed & Hnone & Hsome).
        repeat split; try done.
        intros Hlen j r' [->|Hj]%elem_of_cons; [|by apply Hnamed].
        apply lookup_ge_None in Hco. lia. }
    cbn in Hrun. rewrite Hco, Hti in Hrun.
    destruct (recv co r s) as [o s1].
    destruct (run_turn cos turn (<[i:=Finished o]> ts) s1)
      as [[ts1 s2] later] eqn:Hrec.
    injection Hrun as <- <- <-.
    destruct (IH _ _ _ _ _ Hrec) as (Hl & Hstay & Hnamed & Hnone & Hsome).
    rewrite length_insert in Hl, Hnamed.
    assert (Hhere : ts1 !! i = Some (Finished o))
      by (by apply Hstay, list_lookup_insert_eq).
    repeat split; try done.
    + intros j o' Hj. apply Hstay.
      rewrite list_lookup_insert_ne; [done|]. intros ->. congruence.
    + intros Hlen j r' [->|Hj]%elem_of_cons; [by rewrite Hhere|by apply Hnamed].
    + destruct o as [v|e]; [|discriminate]. intros Hlater Hfe.
      apply Hnone; [done|].
      apply first_exception_None, Forall_insert; [|discriminate].
      by apply first_exception_None.
    + intros e0 He0. destruct o as [v|e]; [by apply Hsome|].
      injection He0 as <-. by exists i.
  - assert (Hrec : run_turn cos turn ts s = (ts', s', raised))
      by (apply Hskip; left; intros r; discriminate).
    destruct (IH _ _ _ _ _ Hrec) as (Hl & Hstay & Hnamed & Hnone & Hsome).
    repeat split; try done.
    intros Hlen j r' [->|Hj]%elem_of_cons; [|by apply Hnamed].
    by rewrite (Hstay i o Hti).
  - assert (Hrec : run_turn cos turn ts s = (ts', s', raised))
      by (apply Hskip; left; intros r; discriminate).
    destruct (IH _ _ _ _ _ Hrec) as (Hl & Hstay & Hnamed & Hnone & Hsome).
    repeat split; try done.
    intros Hlen j r' [->|Hj]%elem_of_cons; [|by apply Hnamed].
    apply lookup_ge_None in Hti.
    rewrite (proj2 (lookup_ge_None _ _)); [discriminate|lia].
Qed.

(** What the completion loop leaves behind: either some task raised and
    holds the exception the awaiter gets, or the loop went through the whole
    schedule without any task raising. *)
Lemma drive_end cos (sched : list (list nat)) ts (s : state) :
  length cos = length ts ->
  first_exception ts = None ->
  length (tasks (drive cos sched ts s)) = length ts /\
  ((exists e i, outcome (drive cos sched ts s) = Some (Raise e) /\
                tasks (drive cos sched ts s) !! i = Some (Finished (Raise e))) \/
   (outcome (drive cos sched ts s) = Ok <$> results (tasks (drive cos sched ts s)) /\
    first_exception (tasks (drive cos sched ts s)) = None /\
    (forall i r, i ∈ concat sched ->
                 tasks (drive cos sched ts s) !! i <> Some (Running r)) /\
    (forall i o, ts !! i = Some (Finished o) ->
                 tasks (drive cos sched ts s) !! i = Some (Finished o)))).
Proof.
  revert ts s. induction sched as [|turn sched IH]; intros ts s Hlen Hfe.
  { simpl. split; [done|]. right. repeat split; auto.
    intros i r Hin. by apply elem_of_nil in Hin. }
  cbn [drive concat].
  destruct (run_turn cos turn ts s) as [[ts1 s1] raised] eqn:Hturn.
  destruct (run_turn_spec _ _ _ _ _ _ _ Hturn)
    as (Hl1 & Hstay1 & Hnamed1 & Hnone1 & Hsome1).
  destruct raised as [e|].
  - destruct (run_turn cos (default [] (head sched)) ts1 s1)
      as [[ts2 s2] raised2] eqn:Hnext.
    destruct (run_turn_spec _ _ _ _ _ _ _ Hnext) as (Hl2 & Hstay2 & _).
    cbn [tasks outcome]. split; [congruence|]. left.
    destruct (Hsome1 e eq_refl) as [i Hi]. exists e, i. auto.
  - destruct (IH ts1 s1) as (Hl & Hcases); [congruence|by apply Hnone1|].
    split; [congruence|].
    destruct Hcases as [Hraise|(Ho & Hfe' & Hnr & Hstay)]; [by left|right].
    repeat split; try done.
    + intros i r [Hi|Hi]%elem_of_app; [|by apply Hnr].
      destruct (ts1 !! i) as [[r1|o1]|] eqn:Hti.
      * by destruct (Hnamed1 Hlen i r1 Hi).
      * by rewrite (Hstay i o1 Hti).
      * apply lookup_ge_None in Hti.
        rewrite (proj2 (lookup_ge_None _ _)); [discriminate|lia].
    + intros i o Hi. by apply Hstay, Hstay1.
Qed.

Lemma elem_of_concat_singletons (i : nat) (l : list nat) :
  i ∈ l -> i ∈ concat ((fun i => [i]) <$> l).
Proof.
  induction l as [|j l IH]; [done|].
  intros [->|Hi]%elem_of_cons; cbn; [by left|right; auto].
Qed.

Lemma gather_spec cos (sched : list (list nat)) (s : state) :
  (exists o, outcome (gather cos sched s) = Some o) /\
  length (tasks (gather cos sched s)) = length cos /\
  (forall vs, outcome (gather cos sched s) = Some (Ok vs) ->
     tasks (gather cos sched s) = (fun v => Finished (Ok v)) <$> vs) /\
  (forall e, outcome (gather cos sched s) = Some (Raise e) ->
     exists i, tasks (gather cos sched s) !! i = Some (Finished (Raise e))).
Proof.
  unfold gather. pose proof (start_all_length cos s) as Hlen.
  destruct (start_all cos s) as [ts s1]. cbn [fst] in *.
  destruct (first_exception ts) as [e|] eqn:Hfe.
  { destruct (run_turn cos (default [] (head sched)) ts s1)
      as [[ts2 s2] raised2] eqn:Hnext.
    destruct (run_turn_spec _ _ _ _ _ _ _ Hnext) as (Hl2 & Hstay2 & _).
    cbn [outcome tasks]. split; [by eexists|]. split; [congruence|].
    split; [discriminate|].
    intros e' [= <-]. destruct (first_exception_Some _ _ Hfe) as [i Hi].
    exists i. by apply Hstay2. }
  destruct (drive_end cos (sched ++ ((fun i => [i]) <$> seq 0 (length cos))) ts s1)
    as (Hl & Hcases); [done|done|].
  split; [|split; [congruence|]].
  - destruct Hcases as [(e & i & Ho & _)|(Ho & Hfe' & Hnr & _)]; [by eexists|].
    destruct (results_total _ Hfe') as [vs Hvs].
    + intros i r Hi. apply (Hnr i r); [|done].
      rewrite concat_app. apply elem_of_app. right.
      apply elem_of_concat_singletons, elem_of_seq.
      apply lookup_lt_Some in Hi. lia.
    + rewrite Ho, Hvs. by eexists.
  - destruct Hcases as [(e & i & Ho & Hi)|(Ho & _)].
    + split; [intros vs; rewrite Ho; discriminate|].
      intros e'. rewrite Ho. intros [= <-]. by exists i.
    + split.
      * intros vs. rewrite Ho.
        destruct (results _) as [vs'|] eqn:Hres; [|discriminate].
        intros [= <-]. by apply results_inv.
      * intros e. rewrite Ho. by destruct (results _).
Qed.

(** C3, as [asyncio.gather] has it by default: the awaiter always gets an
    outcome.  A list of results is returned only when every task has settled
    with a value, and holds these values slot by slot.  When a dispatch
    fails, the exception of a task that has raised is raised to the awaiter
    in place of any list. *)
Theorem gather_returns_all_or_raises_first_failure
    cos (sched : list (list nat)) (s : state) :
  (exists o, outcome (gather cos sched s) = Some o) /\
  length (tasks (gather cos sched s)) = length cos /\
  (forall vs, outcome (gather cos sched s) = Some (Ok vs) ->
     length vs = length cos /\
     tasks (gather cos sched s) = (fun v => Finished (Ok v)) <$> vs) /\
  (forall e, outcome (gather cos sched s) = Some (Raise e) ->
     exists i, tasks (gather cos sched s) !! i = Some (Finished (Raise e))).
Proof.
  destruct (gather_spec cos sched s) as (Hsome & Hlen & Hok & Hraise).
  repeat split; try done.
  - rewrite <- Hlen, (Hok vs H). by rewrite length_fmap.
  - by apply Hok.
Qed.

End Gather.

Section Batch.

Variable srv : list request -> request -> reply.
Variable repr : json -> string.

Local Abbreviation invoke := (invoke srv repr).

Lemma first_exception_running {A} (rs : list reply) :
  first_exception (A:=A) (Running <$> rs) = None.
Proof. induction rs; simpl; auto. Qed.

Lemma settled_as_running (rs : list reply) :
  Forall2 settled_as (Running <$> rs) rs.
Proof. induction rs; simpl; constructor; [by left|done]. Qed.

Lemma recv_invoke_decoded (k : call) (r : reply) (s : state) :
  fst (recv (invoke k) r s) = decoded r.
Proof.
  rewrite (recv_invoke srv repr k).
  apply (decode_and_return_spec (line_after k) r s).
Qed.

(** Whatever the completion order, slot [i] only ever holds what the reply
    to request [i] decodes to. *)
Lemma run_turn_settled_as (calls : list call) (turn : list nat)
    (ts : list (task json)) (rs : list reply) (s : state) :
  Forall2 settled_as ts rs ->
  Forall2 settled_as (run_turn (invoke <$> calls) turn ts s).1.1 rs.
Proof.
  revert ts s. induction turn as [|i turn IH]; intros ts s Hinv; [done|].
  cbn [run_turn]. rewrite list_lookup_fmap.
  destruct (calls !! i) as [k|]; cbn [fmap option_fmap option_map]; [|by apply IH].
  destruct (ts !! i) as [[r|o]|] eqn:Hti; [|by apply IH|by apply IH].
  pose proof (recv_invoke_decoded k r s) as Hrecv.
  destruct (recv (invoke k) r s) as [o s']. simpl in Hrecv. subst o.
  assert (Hinv' : Forall2 settled_as (<[i:=Finished (decoded r)]> ts) rs).
  { destruct (Forall2_lookup_l _ _ _ _ _ Hinv Hti) as (r' & Hr' & [Hrun|Hfin]);
      [|discriminate].
    injection Hrun as <-.
    rewrite <- (list_insert_id rs i r Hr').
    apply Forall2_insert; [done|by right]. }
  specialize (IH _ s' Hinv').
  by destruct (run_turn _ turn _ s') as [[ts1 s1] later].
Qed.

Lemma drive_settled_as (calls : list call) (sched : list (list nat))
    (ts : list (task json)) (rs : list reply) (s : state) :
  Forall2 settled_as ts rs ->
  Forall2 settled_as (tasks (drive (invoke <$> calls) sched ts s)) rs.
Proof.
  revert ts s. induction sched as [|turn sched IH]; intros ts s Hinv; [done|].
  cbn [drive].
  pose proof (run_turn_settled_as calls turn ts rs s Hinv) as H1.
  destruct (run_turn _ turn ts s) as [[ts1 s1] [e|]]; cbn [fst] in H1;
    [|by apply IH].
  pose proof (run_turn_settled_as calls (default [] (head sched)) ts1 rs s1 H1)
    as H2.
  by destruct (run_turn _ (default [] (head sched)) ts1 s1) as [[ts2 s2] e2].
Qed.

(** Inside the scope every request of a batch leaves, in argument order. *)
Lemma start_all_open (calls : list call) (s : state) :
  session_open (self s) = true ->
  fst (start_all (invoke <$> calls) s) =
    Running <$> replies_to srv repr calls (sent s) (self s).
Proof.
  revert s. induction calls as [|k calls IH]; intros s Hopen; [done|].
  cbn [fmap list_fmap start_all replies_to].
  rewrite (send_invoke srv repr k s), session_request_open by exact Hopen.
  cbn [self sent].
  match goal with
  | |- context [start_all _ ?s1] => specialize (IH s1 Hopen)
  end.
  destruct (start_all _ _) as [ts s2]. cbn [fst self sent] in *.
  by rewrite IH.
Qed.

Lemma gather_order_from_replies
    (calls : list call) (sched : list (list nat)) (s : state) (rs : list reply) :
  fst (start_all (invoke <$> calls) s) = Running <$> rs ->
  length rs = length calls /\
  (forall vs,
     outcome (gather (invoke <$> calls) sched s) = Some (Ok vs) ->
     length vs = length calls /\ Ok <$> vs = decoded <$> rs) /\
  (forall ds,
     decoded <$> rs = Ok <$> ds ->
     outcome (gather (invoke <$> calls) sched s) = Some (Ok ds)).
Proof.
  intros Hstart.
  assert (Hlen : length rs = length calls).
  { pose proof (start_all_length (invoke <$> calls) s) as H.
    rewrite Hstart, !length_fmap in H. done. }
  destruct (gather_spec (invoke <$> calls) sched s) as (Hsome & _ & Hok & Hraise).
  assert (Hinv : Forall2 settled_as (tasks (gather (invoke <$> calls) sched s)) rs).
  { unfold gather. destruct (start_all (invoke <$> calls) s) as [ts s1].
    simpl in Hstart. subst ts. rewrite first_exception_running.
    apply drive_settled_as, settled_as_running. }
  assert (Hvals : forall vs,
    outcome (gather (invoke <$> calls) sched s) = Some (Ok vs) ->
    Ok <$> vs = decoded <$> rs).
  { intros vs Hvs. rewrite (Hok vs Hvs) in Hinv.
    apply list_eq_Forall2, Forall2_fmap.
    rewrite Forall2_fmap_l in Hinv.
    eapply Forall2_impl; [exact Hinv|].
    intros v r [Hrun|Hfin]; [discriminate|]. simpl in *. congruence. }
  split; [done|]. split.
  - intros vs Hvs. split; [|by apply Hvals].
    pose proof (f_equal length (Hvals vs Hvs)) as Hl.
    rewrite !length_fmap in Hl. congruence.
  - intros ds Hds. destruct Hsome as [[vs|e] Ho].
    + rewrite Ho. do 2 f_equal.
      pose proof (Hvals vs Ho) as Heq. rewrite Hds in Heq.
      revert Heq. clear. revert ds.
      induction vs as [|v vs IH]; intros [|d ds]; simpl; try done.
      intros [= -> Heq]. f_equal. by apply IH.
    + destruct (Hraise e Ho) as [i Hi].
      destruct (Forall2_lookup_l _ _ _ _ _ Hinv Hi) as (r & Hr & [Hrun|Hfin]);
        [discriminate|].
      assert (Hdr : (decoded <$> rs) !! i = Some (decoded r))
        by (rewrite list_lookup_fmap, Hr; done).
      rewrite Hds, list_lookup_fmap in Hdr.
      destruct (ds !! i); simpl in Hdr; [|discriminate].
      injection Hfin as Hfin. congruence.
Qed.

(** C7, as [asyncio.gather] has it by default: for a batch of endpoint calls
    made inside the scope, whatever the completion order, a returned list
    has one value per call, the value in slot [i] being what the reply to
    request [i] decodes to; and such a list is returned whenever every reply
    decodes. *)
Theorem gather_results_follow_input_order
    (calls : list call) (sched : list (list nat)) (s : state) :
  session_open (self s) = true ->
  (forall vs,
     outcome (gather (invoke <$> calls) sched s) = Some (Ok vs) ->
     length vs = length calls /\
     Ok <$> vs = decoded <$> replies_to srv repr calls (sent s) (self s)) /\
  (forall ds,
     decoded <$> replies_to srv repr calls (sent s) (self s) = Ok <$> ds ->
     outcome (gather (invoke <$> calls) sched s) = Some (Ok ds)).
Proof.
  intros Hopen.
  apply (gather_order_from_replies calls sched s), start_all_open, Hopen.
Qed.

End Batch.

(** * Further properties of the client *)

Section Login.

Variable srv : list request -> request -> reply.

(** The state a login leaves when it raises after its request has left:
    only the transport's log has grown. *)
Lemma login_recv_raise_state (r : reply) (s : state) (e : exn) :
  fst (login_recv r s) = Raise e -> snd (login_recv r s) = s.
Proof.
  destruct (login_recv_cases r s)
    as [(e' & He)|(code & m & d & t & -> & Hs & Hd & Ht)].
  - by rewrite He.
  - by rewrite (login_recv_accepted code m d t s Hs Hd Ht).
Qed.

(** X1: [login] returns exactly when it is answered by a dict with a truthy
    [success] and a dict under [data] holding [token]; what it returns is
    that dict.  In every other case it raises, and then nothing but the
    transport's log has changed: no token is stored, nothing is printed. *)
Theorem login_returns_exactly_when_granted
    (email password : string) (s : state) :
  session_open (self s) = true ->
  (forall body,
     fst (await (login srv email password) s) = Ok body <->
     exists code m d t,
       srv (sent s) (login_request (self s) email password) =
         Answer {| status := code; content := Json (JObj m) |} /\
       body = JObj m /\
       Py.truthy (default JNull (m !! "success")) = true /\
       m !! "data" = Some (JObj d) /\
       d !! "token" = Some t) /\
  (forall e,
     fst (await (login srv email password) s) = Raise e ->
     snd (await (login srv email password) s) =
       {| self := self s;
          sent := sent s ++ [login_request (self s) email password];
          stdout := stdout s |}).
Proof.
  intros Hopen. rewrite await_login_open by exact Hopen. split.
  - intros body. split.
    + intros Hok.
      match type of Hok with
      | fst (login_recv ?r ?s0) = _ =>
          destruct (login_recv_cases r s0)
            as [(e & He)|(code & m & d & t & Hr & Hs & Hd & Ht)]
      end.
      * rewrite He in Hok. discriminate.
      * exists code, m, d, t. split; [done|].
        rewrite Hr, (login_recv_accepted code m d t _ Hs Hd Ht) in Hok.
        injection Hok as <-. auto.
    + intros (code & m & d & t & Hr & -> & Hs & Hd & Ht).
      by rewrite Hr, (login_recv_accepted code m d t _ Hs Hd Ht).
  - intros e He. by apply login_recv_raise_state in He.
Qed.

(** X2: A reply that an endpoint call could not decode makes [login] raise the
    same exception; and a body that decodes to anything but a dict has no
    [get] to ask for the marker. *)
Theorem login_raises_on_undecodable_or_non_dict
    (email password : string) (s : state) :
  session_open (self s) = true ->
  (forall e,
     decoded (srv (sent s) (login_request (self s) email password)) = Raise e ->
     fst (await (login srv email password) s) = Raise e) /\
  (forall data,
     decoded (srv (sent s) (login_request (self s) email password)) = Ok data ->
     (forall m, data <> JObj m) ->
     fst (await (login srv email password) s) = Raise (AttributeError "get")).
Proof.
  intros Hopen. rewrite await_login_open by exact Hopen.
  destruct (srv (sent s) (login_request (self s) email password))
    as [|[code [| |data]]]; simpl; split; try (intros ? [= <-]; done);
    try discriminate.
  - intros data' [= <-] Hnd.
    destruct data as [|b|z|f|str|l|m]; try reflexivity. by destruct (Hnd m).
Qed.

(** X3: A truthy marker without a token to go with it: [data["data"]["token"]]
    raises before anything is assigned. *)
Theorem login_with_marker_but_no_token
    (email password : string) (s : state) (code : Z) (m : gmap string json) :
  session_open (self s) = true ->
  srv (sent s) (login_request (self s) email password) =
    Answer {| status := code; content := Json (JObj m) |} ->
  Py.truthy (default JNull (m !! "success")) = true ->
  (m !! "data" = None ->
   fst (await (login srv email password) s) = Raise (KeyError "data")) /\
  (forall v, m !! "data" = Some v -> (forall d, v <> JObj d) ->
   fst (await (login srv email password) s) = Raise TypeError) /\
  (forall d, m !! "data" = Some (JObj d) -> d !! "token" = None ->
   fst (await (login srv email password) s) = Raise (KeyError "token")).
Proof.
  intros Hopen Hr Htrue. rewrite await_login_open, Hr by exact Hopen.
  unfold login_recv, arrive, response_json, bind, lift, ret.
  cbn [content Py.get Py.getitem]. rewrite Htrue.
  destruct (m !! "data") as [v|] eqn:Hd; cbn [Py.getitem].
  { repeat split; try done.
    - intros v' [= <-] Hnd.
      destruct v as [|b|z|f|str|l|d]; try reflexivity. by destruct (Hnd d).
    - intros d [= ->]. cbn [Py.getitem]. by intros ->. }
  repeat split; done.
Qed.

End Login.

Section Calls.

Variable srv : list request -> request -> reply.
Variable repr : json -> string.

Local Abbreviation invoke := (invoke srv repr).
Local Abbreviation request_of := (request_of repr).

Lemma or_list_default {A} (xs : option (list A)) : Py.or_list xs = default [] xs.
Proof. by destruct xs as [[|x l]|]. Qed.

Lemma or_dict_default (d : option (gmap string json)) :
  Py.or_dict d = default ∅ d.
Proof.
  destruct d as [m|]; [|done]. unfold Py.or_dict.
  case_bool_decide; by subst.
Qed.

(** X4: [constraints or []], [objectives or []] and [options or {}]: an argument
    left out, passed as [None] or passed empty goes out as an empty list or
    dict, and the four keys are always there. *)
Theorem reason_sends_empty_for_missing_arguments
    (c : YYC3Client) (context : string)
    (constraints objectives : option (list string))
    (options : option (gmap string json)) :
  payload (reason_request repr c context constraints objectives options) =
    Some (JObj {[ "context" := JStr context;
                  "constraints" := JArr (JStr <$> default [] constraints);
                  "objectives" := JArr (JStr <$> default [] objectives);
                  "options" := JObj (default ∅ options) ]}) /\
  reason_request repr c context None None None =
    reason_request repr c context (Some []) (Some []) (Some ∅).
Proof.
  split; [|reflexivity]. unfold reason_request; cbn [payload].
  by rewrite !or_list_default, or_dict_default.
Qed.

(** X5: Outside the scope a method still prints its opening line, then fails on
    [self.session]: there is none before [__aenter__], and aiohttp refuses
    a closed one.  Nothing reaches the transport. *)
Theorem call_outside_scope_sends_nothing (k : call) (s : state) :
  session_open (self s) = false ->
  (session (self s) = None ->
   fst (await (invoke k) s) =
     Raise (AttributeError (attr_of (method (request_of k (self s)))))) /\
  (session (self s) <> None ->
   fst (await (invoke k) s) = Raise (RuntimeError "Session is closed")) /\
  snd (await (invoke k) s) =
    {| self := self s; sent := sent s;
       stdout := stdout s ++ [line_before k] |}.
Proof.
  intros Hclosed. unfold await, bind. rewrite send_invoke.
  unfold session_request, session_open in *. cbn [self sent stdout].
  destruct (session (self s)) as [[[|]]|]; try discriminate; cbn;
    repeat split; try done.
Qed.

(** X6: Inside the scope a call prints its opening line before the request
    leaves and its closing line only once the body has been decoded. *)
Theorem call_prints_closing_line_only_on_return (k : call) (s : state) :
  session_open (self s) = true ->
  stdout (snd (await (invoke k) s)) =
    stdout s ++
    match fst (await (invoke k) s) with
    | Ok _ => [line_before k; line_after k]
    | Raise _ => [line_before k]
    end.
Proof.
  intros Hopen. unfold await, bind.
  rewrite send_invoke, session_request_open by exact Hopen.
  rewrite recv_invoke. cbn [self sent stdout].
  destruct (srv _ _) as [|[code [| |data]]]; cbn; try done.
  by rewrite <- app_assoc.
Qed.

End Calls.

Section GatherMore.

Context {A : Type}.
Implicit Types (cos : list (coroutine A)) (ts : list (task A)).

(** Once no task is suspended the loop has nothing left to resume. *)
Lemma run_turn_settled cos (turn : list nat) ts (s : state) :
  (forall i r, ts !! i <> Some (Running r)) ->
  run_turn cos turn ts s = (ts, s, None).
Proof.
  intros Hnr. induction turn as [|i turn IH]; [done|].
  cbn [run_turn]. destruct (cos !! i); [|done].
  destruct (ts !! i) as [[r|o]|] eqn:Hi; [by destruct (Hnr i r)|done|done].
Qed.

Lemma drive_settled cos (sched : list (list nat)) ts (s : state) :
  (forall i r, ts !! i <> Some (Running r)) ->
  drive cos sched ts s =
    {| outcome := Ok <$> results ts; tasks := ts; final := s |}.
Proof.
  intros Hnr. induction sched as [|turn sched IH]; [done|].
  cbn [drive]. by rewrite run_turn_settled.
Qed.

(** [asyncio.gather()] of nothing is the empty list, at once. *)
Theorem gather_of_nothing (sched : list (list nat)) (s : state) :
  gather (A:=A) [] sched s =
    {| outcome := Some (Ok []); tasks := []; final := s |}.
Proof.
  unfold gather. cbn [start_all first_exception length seq].
  rewrite drive_settled; [done|]. intros i r. cbn. discriminate.
Qed.

Lemma run_turn_single (co : coroutine A) (turn : list nat) (r : reply)
    (s : state) :
  run_turn [co] turn [Running r] s =
    if decide (0 ∈ turn)
    then ([Finished (fst (recv co r s))], snd (recv co r s),
          match fst (recv co r s) with Raise e => Some e | Ok _ => None end)
    else ([Running r], s, None).
Proof.
  induction turn as [|i turn IH].
  { by rewrite decide_False by apply not_elem_of_nil. }
  destruct i as [|i].
  - rewrite decide_True by (apply elem_of_cons; by left).
    cbn [run_turn lookup list_lookup]. destruct (recv co r s) as [o s'].
    cbn [fst snd insert list_insert].
    rewrite run_turn_settled; [done|].
    intros [|i] r'; cbn; discriminate.
  - cbn [run_turn]. change ([co] !! S i) with (@None (coroutine A)).
    rewrite IH. destruct (decide (0 ∈ turn)) as [Hin|Hout].
    + by rewrite decide_True by (apply elem_of_cons; by right).
    + rewrite decide_False; [done|].
      intros [Heq|Hin]%elem_of_cons; [discriminate|done].
Qed.

Lemma drive_single (co : coroutine A) (sched : list (list nat)) (r : reply)
    (s : state) :
  0 ∈ concat sched ->
  drive [co] sched [Running r] s =
    {| outcome := Some match fst (recv co r s) with
                       | Ok v => Ok [v]
                       | Raise e => Raise e
                       end;
       tasks := [Finished (fst (recv co r s))];
       final := snd (recv co r s) |}.
Proof.
  induction sched as [|turn sched IH]; intros Hin.
  { by apply elem_of_nil in Hin. }
  cbn [drive]. rewrite run_turn_single.
  destruct (decide (0 ∈ turn)) as [Hhere|Hnot].
  - destruct (recv co r s) as [[v|e] s']; cbn [fst snd].
    + rewrite drive_settled; [done|].
      intros [|i] r'; cbn; discriminate.
    + rewrite run_turn_settled; [done|].
      intros [|i] r'; cbn; discriminate.
  - apply IH. cbn [concat] in Hin.
    apply elem_of_app in Hin as [|]; [done|done].
Qed.

(** A batch of one is an [await]: the same outcome, wrapped in a list, and
    the same state afterwards, whatever the schedule says. *)
Theorem gather_of_one_is_await (co : coroutine A) (sched : list (list nat))
    (s : state) :
  outcome (gather [co] sched s) =
    Some match fst (await co s) with
         | Ok v => Ok [v]
         | Raise e => Raise e
         end /\
  final (gather [co] sched s) = snd (await co s).
Proof.
  unfold gather, await, bind. cbn [start_all length seq].
  destruct (send co s) as [[r|e] s1]; cbn [first_exception].
  2:{ rewrite run_turn_settled; [done|]. intros [|i] r; cbn; discriminate. }
  rewrite drive_single; [done|].
  rewrite concat_app. apply elem_of_app. right. cbn. apply elem_of_cons. by left.
Qed.

End GatherMore.

Section BatchMore.

Variable srv : list request -> request -> reply.
Variable repr : json -> string.

Local Abbreviation invoke := (invoke srv repr).
Local Abbreviation request_of := (request_of repr).

(** Inside the scope, starting a batch prints the opening lines and hands
    over the requests, both in argument order. *)
Lemma start_all_open_state (calls : list call) (s : state) :
  session_open (self s) = true ->
  snd (start_all (invoke <$> calls) s) =
    {| self := self s;
       sent := sent s ++ ((fun k => request_of k (self s)) <$> calls);
       stdout := stdout s ++ (line_before <$> calls) |}.
Proof.
  revert s. induction calls as [|k calls IH]; intros s Hopen.
  { cbn. rewrite !app_nil_r. by destruct s. }
  cbn [fmap list_fmap start_all].
  rewrite (send_invoke srv repr k s), session_request_open by exact Hopen.
  cbn [self sent stdout].
  match goal with
  | |- context [start_all _ ?s1] => specialize (IH s1 Hopen)
  end.
  destruct (start_all _ _) as [ts s2]. cbn [fst snd self sent stdout] in *.
  rewrite IH. by rewrite <- !app_assoc.
Qed.

(** Resuming endpoint calls touches neither the client nor the log. *)
Lemma run_turn_invoke_frame (calls : list call) (turn : list nat)
    (ts : list (task json)) (s : state) :
  self (run_turn (invoke <$> calls) turn ts s).1.2 = self s /\
  sent (run_turn (invoke <$> calls) turn ts s).1.2 = sent s.
Proof.
  revert ts s. induction turn as [|i turn IH]; intros ts s; [done|].
  cbn [run_turn]. rewrite list_lookup_fmap.
  destruct (calls !! i) as [k|]; cbn [fmap option_fmap option_map]; [|apply IH].
  destruct (ts !! i) as [[r|o]|]; [|apply IH|apply IH].
  rewrite (recv_invoke srv repr k).
  destruct (decode_and_return_spec (line_after k) r s) as (_ & Hself & Hsent).
  destruct (decode_and_return (line_after k) r s) as [o s'].
  cbn [fst snd] in *.
  specialize (IH (<[i:=Finished o]> ts) s').
  destruct (run_turn _ turn _ s') as [[ts1 s1] later]. cbn [fst snd] in *.
  destruct IH as (-> & ->). done.
Qed.

Lemma drive_invoke_frame (calls : list call) (sched : list (list nat))
    (ts : list (task json)) (s : state) :
  self (final (drive (invoke <$> calls) sched ts s)) = self s /\
  sent (final (drive (invoke <$> calls) sched ts s)) = sent s.
Proof.
  revert ts s. induction sched as [|turn sched IH]; intros ts s; [done|].
  cbn [drive].
  pose proof (run_turn_invoke_frame calls turn ts s) as H1.
  destruct (run_turn _ turn ts s) as [[ts1 s1] [e|]]; cbn [fst snd] in H1.
  - pose proof (run_turn_invoke_frame calls (default [] (head sched)) ts1 s1)
      as H2.
    destruct (run_turn _ (default [] (head sched)) ts1 s1) as [[ts2 s2] e2].
    cbn [fst snd final] in *. destruct H1 as (<- & <-). done.
  - destruct (IH ts1 s1) as (-> & ->). done.
Qed.

Lemma gather_sent_self
    (calls : list call) (sched : list (list nat)) (s : state) :
  session_open (self s) = true ->
  sent (final (gather (invoke <$> calls) sched s)) =
    sent s ++ ((fun k => request_of k (self s)) <$> calls) /\
  self (final (gather (invoke <$> calls) sched s)) = self s.
Proof.
  intros Hopen. unfold gather.
  pose proof (start_all_open srv repr calls s Hopen) as Hts.
  pose proof (start_all_open_state calls s Hopen) as Hst.
  destruct (start_all (invoke <$> calls) s) as [ts s1].
  cbn [fst snd] in *. subst ts s1. rewrite first_exception_running.
  match goal with
  | |- context [drive ?cos ?sc ?ts ?s1] =>
      destruct (drive_invoke_frame calls sc ts s1) as (Hself & Hsent)
  end.
  by rewrite Hself, Hsent.
Qed.

(** X7: A batch made inside the scope hands the transport one request per call,
    in argument order, and nothing else, whatever the completion order and
    whether it returns or raises; the client object is as before. *)
Theorem gather_sends_each_request_once_in_order
    (calls : list call) (sched : list (list nat)) (s : state) :
  session_open (self s) = true ->
  sent (final (gather (invoke <$> calls) sched s)) =
    sent s ++ ((fun k => request_of k (self s)) <$> calls) /\
  self (final (gather (invoke <$> calls) sched s)) = self s.
Proof. exact (gather_sent_self calls sched s). Qed.

Lemma gather_settled_as (calls : list call) (sched : list (list nat)) (s : state) :
  session_open (self s) = true ->
  Forall2 settled_as (tasks (gather (invoke <$> calls) sched s))
    (replies_to srv repr calls (sent s) (self s)).
Proof.
  intros Hopen. unfold gather.
  pose proof (start_all_open srv repr calls s Hopen) as Hts.
  destruct (start_all (invoke <$> calls) s) as [ts s1].
  cbn [fst] in Hts. subst ts. rewrite first_exception_running.
  apply (drive_settled_as srv repr), settled_as_running.
Qed.

Lemma gather_outcome_from_replies
    (calls : list call) (sched : list (list nat)) (s : state) :
  session_open (self s) = true ->
  (forall e,
     outcome (gather (invoke <$> calls) sched s) = Some (Raise e) ->
     exists i r, replies_to srv repr calls (sent s) (self s) !! i = Some r /\
                 decoded r = Raise e) /\
  ((exists vs, outcome (gather (invoke <$> calls) sched s) = Some (Ok vs)) <->
   Forall (fun r => exists data, decoded r = Ok data)
     (replies_to srv repr calls (sent s) (self s))).
Proof.
  intros Hopen.
  pose proof (gather_settled_as calls sched s Hopen) as Hinv.
  destruct (gather_order_from_replies srv repr calls sched s _
              (start_all_open srv repr calls s Hopen)) as (_ & Hvals & Hall).
  destruct (gather_spec (invoke <$> calls) sched s) as (_ & _ & _ & Hraise).
  split.
  - intros e He. destruct (Hraise e He) as (i & Hi).
    destruct (Forall2_lookup_l _ _ _ _ _ Hinv Hi) as (r & Hr & [Hrun|Hfin]);
      [discriminate|].
    exists i, r. split; [done|]. by injection Hfin.
  - split.
    + intros [vs Hvs]. destruct (Hvals vs Hvs) as (_ & Heq).
      apply Forall_lookup_2. intros i r Hr.
      assert (Hdr : (decoded <$> replies_to srv repr calls (sent s) (self s)) !! i
                    = Some (decoded r))
        by (by rewrite list_lookup_fmap, Hr).
      rewrite <- Heq, list_lookup_fmap in Hdr.
      destruct (vs !! i) as [v|]; [|discriminate].
      exists v. by injection Hdr.
    + intros Hdec.
      assert (exists ds,
        decoded <$> replies_to srv repr calls (sent s) (self s) = Ok <$> ds)
        as [ds Hds].
      { clear -Hdec. induction Hdec as [|r rs Hr _ IH]; [by exists []|].
        destruct Hr as [data Hr]. destruct IH as [ds IH].
        exists (data :: ds). cbn. by rewrite Hr, IH. }
      exists ds. by apply Hall.
Qed.

(** X8: A batch made inside the scope raises only what one of its own replies
    makes a dispatch raise, and it returns exactly when every reply
    decodes. *)
Theorem gather_raises_exactly_when_a_reply_fails
    (calls : list call) (sched : list (list nat)) (s : state) :
  session_open (self s) = true ->
  (forall e,
     outcome (gather (invoke <$> calls) sched s) = Some (Raise e) ->
     exists i r, replies_to srv repr calls (sent s) (self s) !! i = Some r /\
                 decoded r = Raise e) /\
  ((exists vs, outcome (gather (invoke <$> calls) sched s) = Some (Ok vs)) <->
   Forall (fun r => exists data, decoded r = Ok data)
     (replies_to srv repr calls (sent s) (self s))).
Proof. exact (gather_outcome_from_replies calls sched s). Qed.


Lemma start_all_outside_scope (calls : list call) (s : state) :
  session_open (self s) = false ->
  sent (snd (start_all (invoke <$> calls) s)) = sent s /\
  self (snd (start_all (invoke <$> calls) s)) = self s /\
  Forall2 (fun t k => t = Finished (Raise (A:=json)
                          match fst (await (invoke k) s) with
                          | Ok _ => TypeError
                          | Raise e => e
                          end) /\
                      exists e, fst (await (invoke k) s) = Raise e)
    (fst (start_all (invoke <$> calls) s)) calls.
Proof.
  intros Hclosed.
  assert (Hsend : forall k s', self s' = self s -> sent s' = sent s ->
    exists e, fst (await (invoke k) s) = Raise e /\
      send (invoke k) s' =
        (Raise e, {| self := self s'; sent := sent s';
                     stdout := stdout s' ++ [line_before k] |})).
  { intros k s' Hself Hsent. unfold await, bind.
    rewrite !(send_invoke srv repr). unfold session_request, session_open in *.
    cbn [self sent stdout]. rewrite Hself.
    destruct (session (self s)) as [[[|]]|]; try discriminate; by eexists. }
  assert (Hgen : forall s', self s' = self s -> sent s' = sent s ->
    sent (snd (start_all (invoke <$> calls) s')) = sent s /\
    self (snd (start_all (invoke <$> calls) s')) = self s /\
    Forall2 (fun t k => t = Finished (Raise (A:=json)
                            match fst (await (invoke k) s) with
                            | Ok _ => TypeError
                            | Raise e => e
                            end) /\
                        exists e, fst (await (invoke k) s) = Raise e)
      (fst (start_all (invoke <$> calls) s')) calls).
  { induction calls as [|k calls IH]; intros s' Hself Hsent.
    { cbn. auto. }
    cbn [fmap list_fmap start_all].
    destruct (Hsend k s' Hself Hsent) as (e & He & ->).
    match goal with
    | |- context [start_all _ ?s1] =>
        destruct (IH s1) as (IH1 & IH2 & IH3); [done|done|]
    end.
    destruct (start_all _ _) as [ts s2]. cbn [fst snd] in *.
    split; [done|]. split; [done|]. constructor; [|done].
    rewrite He. split; [done|by eexists]. }
  by apply Hgen.
Qed.

(** X9: Outside the scope no task of a batch gets as far as the transport: the
    awaiter is raised what a lone [await] of the first call raises, and the
    log and the client are as before. *)
Theorem gather_outside_scope_sends_nothing
    (k : call) (calls : list call) (sched : list (list nat)) (s : state) :
  session_open (self s) = false ->
  (exists e, fst (await (invoke k) s) = Raise e /\
             outcome (gather (invoke <$> k :: calls) sched s) = Some (Raise e)) /\
  sent (final (gather (invoke <$> k :: calls) sched s)) = sent s /\
  self (final (gather (invoke <$> k :: calls) sched s)) = self s.
Proof.
  intros Hclosed. unfold gather.
  destruct (start_all_outside_scope (k :: calls) s Hclosed) as (Hsent & Hself & Hts).
  destruct (start_all (invoke <$> k :: calls) s) as [ts s1].
  cbn [fst snd] in *.
  inversion Hts as [|t k' ts' calls' (Ht & e & He) Hrest]; subst.
  rewrite He. cbn [first_exception].
  match goal with
  | |- context [run_turn _ ?turn ?ts ?s1] =>
      pose proof (run_turn_invoke_frame (k :: calls) turn ts s1) as Hframe;
      destruct (run_turn (invoke <$> k :: calls) turn ts s1) as [[ts2 s2] e2]
  end.
  cbn [fst snd final outcome] in *. destruct Hframe as (-> & ->).
  split; [by exists e|done].
Qed.

End BatchMore.

(** * The example programs *)

Section Steps.

Variable srv : list request -> request -> reply.
Variable repr : json -> string.
Variable base : string.

Lemma runs_conseq {A} (m : M A) (P Q : result A -> list string -> Prop) :
  runs base m P -> (forall o us, P o us -> Q o us) -> runs base m Q.
Proof.
  intros Hm HPQ s Hopen Hbase.
  destruct (Hm s Hopen Hbase) as (H1 & H2 & us & H3 & H4). eauto 10.
Qed.

Lemma runs_ret {A} (a : A) :
  runs base (ret a) (fun o us => o = Ok a /\ us = []).
Proof.
  intros s Hopen Hbase. cbn. repeat split; try done.
  exists []. by rewrite app_nil_r.
Qed.

Lemma runs_print (line : string) :
  runs base (print line) (fun o us => o = Ok tt /\ us = []).
Proof.
  intros s Hopen Hbase. cbn. repeat split; try done.
  exists []. by rewrite app_nil_r.
Qed.

Lemma runs_lift {A} (r : result A) :
  runs base (lift r) (fun o us => o = r /\ us = []).
Proof.
  intros s Hopen Hbase. cbn. repeat split; try done.
  exists []. by rewrite app_nil_r.
Qed.

Lemma runs_bind {A B} (m : M A) (k : A -> M B)
    (P : result A -> list string -> Prop)
    (Q : A -> result B -> list string -> Prop) :
  runs base m P ->
  (forall a, runs base (k a) (Q a)) ->
  runs base (bind m k)
    (fun o us =>
       (exists e, o = Raise e /\ P (Raise e) us) \/
       (exists a us1 us2, us = us1 ++ us2 /\ P (Ok a) us1 /\ Q a o us2)).
Proof.
  intros Hm Hk s Hopen Hbase. unfold bind.
  destruct (Hm s Hopen Hbase) as (Ho1 & Hb1 & us1 & Hs1 & HP).
  destruct (m s) as [[a|e] s1]; cbn [fst snd] in *.
  - destruct (Hk a s1 Ho1 Hb1) as (Ho2 & Hb2 & us2 & Hs2 & HQ).
    split; [done|]. split; [done|]. exists (us1 ++ us2).
    split; [by rewrite Hs2, Hs1, app_assoc|].
    right. by exists a, us1, us2.
  - split; [done|]. split; [done|]. exists us1. split; [done|].
    left. by exists e.
Qed.

Lemma runs_try_except {A} (m : M A) (h : exn -> M A)
    (P : result A -> list string -> Prop)
    (H : exn -> result A -> list string -> Prop) :
  runs base m P ->
  (forall e, runs base (h e) (H e)) ->
  runs base (try_except m h)
    (fun o us =>
       (exists a, o = Ok a /\ P (Ok a) us) \/
       (exists e us1 us2, us = us1 ++ us2 /\ P (Raise e) us1 /\ H e o us2)).
Proof.
  intros Hm Hh s Hopen Hbase. unfold try_except.
  destruct (Hm s Hopen Hbase) as (Ho1 & Hb1 & us1 & Hs1 & HP).
  destruct (m s) as [[a|e] s1]; cbn [fst snd] in *.
  - split; [done|]. split; [done|]. exists us1. split; [done|].
    left. by exists a.
  - destruct (Hh e s1 Ho1 Hb1) as (Ho2 & Hb2 & us2 & Hs2 & HH).
    split; [done|]. split; [done|]. exists (us1 ++ us2).
    split; [by rewrite Hs2, Hs1, app_assoc|].
    right. by exists e, us1, us2.
Qed.

Lemma runs_try_except_else {A B} (m : M A) (h : exn -> M B) (k : A -> M B)
    (P : result A -> list string -> Prop)
    (H : exn -> result B -> list string -> Prop)
    (Q : A -> result B -> list string -> Prop) :
  runs base m P ->
  (forall e, runs base (h e) (H e)) ->
  (forall a, runs base (k a) (Q a)) ->
  runs base (try_except_else m h k)
    (fun o us =>
       (exists a us1 us2, us = us1 ++ us2 /\ P (Ok a) us1 /\ Q a o us2) \/
       (exists e us1 us2, us = us1 ++ us2 /\ P (Raise e) us1 /\ H e o us2)).
Proof.
  intros Hm Hh Hk s Hopen Hbase. unfold try_except_else.
  destruct (Hm s Hopen Hbase) as (Ho1 & Hb1 & us1 & Hs1 & HP).
  destruct (m s) as [[a|e] s1]; cbn [fst snd] in *.
  - destruct (Hk a s1 Ho1 Hb1) as (Ho2 & Hb2 & us2 & Hs2 & HQ).
    split; [done|]. split; [done|]. exists (us1 ++ us2).
    split; [by rewrite Hs2, Hs1, app_assoc|].
    left. by exists a, us1, us2.
  - destruct (Hh e s1 Ho1 Hb1) as (Ho2 & Hb2 & us2 & Hs2 & HH).
    split; [done|]. split; [done|]. exists (us1 ++ us2).
    split; [by rewrite Hs2, Hs1, app_assoc|].
    right. by exists e, us1, us2.
Qed.

(** Inside the scope a login hands over its one request, whatever comes of
    it. *)
Lemma runs_login (email password : string) :
  runs base (await (login srv email password))
    (fun o us => us = [base +:+ "/api/v1/auth/login"]).
Proof.
  intros s Hopen Hbase. rewrite await_login_open by exact Hopen.
  match goal with
  | |- context [login_recv ?r ?s0] =>
      destruct (login_recv_cases r s0)
        as [(e & He)|(code & m & d & t & Hr & Hs & Hd & Ht)];
      [rewrite He|rewrite Hr, (login_recv_accepted code m d t _ Hs Hd Ht)]
  end; cbn [fst snd self sent session_open session base_url];
    (split; [done|]); (split; [done|]);
    exists [base +:+ "/api/v1/auth/login"];
    by rewrite fmap_app, <- Hbase.
Qed.

Lemma url_request_of (k : call) (c : YYC3Client) :
  url (request_of repr k c) = url (request_of repr k (__init__ (base_url c))).
Proof. by destruct k. Qed.

Lemma runs_invoke (k : call) :
  runs base (await (invoke srv repr k))
    (fun o us => us = [url (request_of repr k (__init__ base))]).
Proof.
  intros s Hopen Hbase.
  destruct (await_invoke_open srv repr k s Hopen) as (_ & Hself & Hsent).
  rewrite Hself, Hsent. split; [done|]. split; [done|].
  exists [url (request_of repr k (__init__ base))].
  by rewrite fmap_app, <- Hbase, <- url_request_of.
Qed.


Lemma runs_gather (calls : list call) (sched : list (list nat)) :
  runs base (await_gather (invoke srv repr <$> calls) sched)
    (fun o us => us = (fun k => url (request_of repr k (__init__ base))) <$> calls).
Proof.
  intros s Hopen Hbase. unfold await_gather. cbn [fst snd].
  destruct (gather_sent_self srv repr calls sched s Hopen)
    as (Hsent & Hself).
  rewrite Hself, Hsent. split; [done|]. split; [done|].
  eexists. split; [|reflexivity].
  rewrite fmap_app, <- list_fmap_compose. f_equal.
  apply list_fmap_ext. intros i k _. cbn.
  by rewrite url_request_of, Hbase.
Qed.

(** *** Block by block *)

Lemma steps_silent {A} (m : M A) (r : result A) :
  runs base m (fun o us => o = r /\ us = []) -> runs base m (in_steps []).
Proof.
  intros Hm. eapply runs_conseq; [exact Hm|].
  intros o us [-> ->]. exists 0. by cbn.
Qed.

Lemma steps_block {A} (m : M A) (block : list string) :
  runs base m (fun o us => us = block) -> runs base m (in_steps [block]).
Proof.
  intros Hm. eapply runs_conseq; [exact Hm|].
  intros o us ->. exists 1. cbn. by rewrite app_nil_r.
Qed.

Lemma steps_bind {A B} (m : M A) (k : A -> M B) (b1 b2 : list (list string)) :
  runs base m (in_steps b1) ->
  (forall a, runs base (k a) (in_steps b2)) ->
  runs base (bind m k) (in_steps (b1 ++ b2)).
Proof.
  intros Hm Hk. eapply runs_conseq; [exact (runs_bind _ _ _ _ Hm Hk)|].
  intros o us [(e & -> & n & Hn & -> & _)|(a & us1 & us2 & -> & H1 & H2)].
  - exists n. split; [rewrite length_app; lia|].
    split; [by rewrite take_app_le|discriminate].
  - destruct H1 as (n1 & _ & -> & Hall). rewrite (Hall a eq_refl), firstn_all.
    destruct H2 as (n2 & Hn2 & -> & Hall2).
    exists (length b1 + n2). split; [rewrite length_app; lia|].
    split.
    + by rewrite take_app_add', concat_app.
    + intros b Hb. rewrite (Hall2 b Hb), length_app. done.
Qed.

Lemma steps_getitem3 {A} (v : json) (k1 k2 k3 : string) (k : json -> M A) :
  (forall a, runs base (k a) (in_steps [])) ->
  runs base (bind (getitem3 v k1 k2 k3) k) (in_steps []).
Proof.
  intros Hk. unfold getitem3.
  apply (steps_bind _ _ [] []); [|exact Hk].
  apply (steps_bind _ _ [] []); [by eapply steps_silent, runs_lift|].
  intros a. apply (steps_bind _ _ [] []); by intros; eapply steps_silent, runs_lift.
Qed.

End Steps.

Section Order.

Variable srv : list request -> request -> reply.
Variable repr : json -> string.
Variable base : string.










(** *** What one step hands over, and what comes of it *)







(** *** Block by block *)











End Order.

Section ProgramProperties.

Variable srv : list request -> request -> reply.
Variable repr : json -> string.
Variable dumps : json -> string.
Variable message : exn -> string.

(** What [async with] adds to a body run inside the scope: the outcome and
    the requests are the body's, and the session is closed behind it. *)
Lemma async_with_client_runs {A} (base : string) (body : M A)
    (Q : result A -> list string -> Prop) (s : state) :
  runs base body Q ->
  (exists us,
     url <$> sent (snd (async_with_client base body s)) = (url <$> sent s) ++ us /\
     Q (fst (async_with_client base body s)) us) /\
  session (self (snd (async_with_client base body s))) =
    Some {| closed := true |}.
Proof.
  intros Hbody. unfold async_with_client. cbn [__aenter__ set_session].
  match goal with
  | |- context [body ?s1] =>
      destruct (Hbody s1) as (Hopen & _ & us & Hsent & HQ); [done|done|];
      destruct (body s1) as [o s2]
  end.
  cbn [fst snd self sent] in *.
  unfold __aexit__, bind, get_self, session_open in *.
  destruct (session (self s2)) as [[[|]]|]; try discriminate.
  cbn. split; [|done]. by exists us.
Qed.


Lemma getitem3_pure (v : json) (k1 k2 k3 : string) :
  exists r, forall s, getitem3 v k1 k2 k3 s = (r, s).
Proof.
  unfold getitem3, bind, lift.
  destruct (Py.getitem v k1) as [a|e]; [|by eexists].
  destruct (Py.getitem a k2) as [b|e]; [|by eexists].
  by eexists.
Qed.

Lemma runs_getitem3 (base : string) (v : json) (k1 k2 k3 : string) :
  runs base (getitem3 v k1 k2 k3) (fun o us => us = []).
Proof.
  destruct (getitem3_pure v k1 k2 k3) as [r Hr].
  intros s Hopen Hbase. rewrite Hr. cbn. repeat split; try done.
  exists []. by rewrite app_nil_r.
Qed.

Ltac fold_calls :=
  repeat match goal with
  | |- context [reason ?s ?r ?a ?b ?c ?d] =>
      change (reason s r a b c d) with (invoke s r (Reason a b c d))
  | |- context [generate_text ?s ?r ?a ?b] =>
      change (generate_text s r a b) with (invoke s r (GenerateText a b))
  | |- context [get_metrics ?s ?r] =>
      change (get_metrics s r) with (invoke s r GetMetrics)
  | |- context [get_learning_data ?s ?r] =>
      change (get_learning_data s r) with (invoke s r GetLearningData)
  end.

Ltac silent_step :=
  first [ eapply steps_silent, runs_print
        | eapply steps_silent, runs_lift
        | eapply steps_silent, runs_ret ].

Ltac step :=
  first
    [ silent_step
    | eapply steps_block, runs_login
    | eapply steps_block, runs_invoke
    | eapply steps_block, runs_gather
    | apply steps_getitem3; intros ?
    | eapply steps_bind; [|intros ?] ].

Lemma basic_example_body_steps :
  runs "http://localhost:3200"
    (await (login srv "user@example.com" "your-password") ;;
     let! reasoning_result :=
       await (reason srv repr "优化项目开发流程"
                (Some ["时间限制"; "预算限制"])
                (Some ["效率提升"; "质量保证"])
                (Some {[ "depth" := JStr "deep"; "timeout" := JInt 30000 ]})) in
     print (nl +:+ "📊 推理结果:") ;;
     (let! v := getitem3 reasoning_result "data" "result" "conclusion" in
      print ("结论: " +:+ Py.str repr v)) ;;
     (let! v := getitem3 reasoning_result "data" "result" "confidence" in
      print ("置信度: " +:+ Py.str repr v)) ;;
     (let! v := getitem3 reasoning_result "data" "metadata" "processingTime" in
      print ("处理时间: " +:+ Py.str repr v +:+ "ms")) ;;
     (let! v := getitem3 reasoning_result "data" "metadata" "tokensUsed" in
      print ("使用Token: " +:+ Py.str repr v)) ;;
     let! generation_result :=
       await (generate_text srv repr "请简述敏捷开发的核心原则" 500) in
     print (nl +:+ "🤖 生成结果:") ;;
     (let! d := lift (Py.getitem generation_result "data") in
      let! v := lift (Py.getitem d "text") in
      print (Py.str repr v)) ;;
     let! metrics := await (get_metrics srv repr) in
     print (nl +:+ "📈 系统指标:") ;;
     print (dumps metrics) ;;
     let! learning_data := await (get_learning_data srv repr) in
     print (nl +:+ "🧠 学习数据:") ;;
     print (dumps learning_data))
    (in_steps [ ["http://localhost:3200/api/v1/auth/login"];
                ["http://localhost:3200/api/v1/engine/reason"];
                ["http://localhost:3200/api/v1/model/generate"];
                ["http://localhost:3200/api/v1/analytics/metrics"];
                ["http://localhost:3200/api/v1/learning/data"] ]).
Proof.
  fold_calls.
  eapply runs_conseq.
  { repeat step. }
  intros o us H. exact H.
Qed.

Lemma basic_example_trace (s : state) :
  (exists n,
     n <= 5 /\
     url <$> sent (snd (basic_example srv repr dumps s)) =
       (url <$> sent s) ++
       take n [ "http://localhost:3200/api/v1/auth/login";
                "http://localhost:3200/api/v1/engine/reason";
                "http://localhost:3200/api/v1/model/generate";
                "http://localhost:3200/api/v1/analytics/metrics";
                "http://localhost:3200/api/v1/learning/data" ] /\
     (forall a, fst (basic_example srv repr dumps s) = Ok a -> n = 5)) /\
  session (self (snd (basic_example srv repr dumps s))) =
    Some {| closed := true |}.
Proof.
  unfold basic_example. unfold bind at 1. unfold print at 1. cbv beta iota.
  match goal with
  | |- context [async_with_client ?b ?body ?s'] =>
      destruct (async_with_client_runs b body _ s' basic_example_body_steps)
        as ((us & Hsent & n & Hn & -> & Hall) & Hclosed)
  end.
  split; [|exact Hclosed].
  exists n. cbn [length] in *. split; [exact Hn|]. split; [|exact Hall].
  rewrite Hsent. cbn [sent]. f_equal.
  do 6 (destruct n as [|n]; [reflexivity|]). lia.
Qed.

Lemma report_results_steps (base : string) (i : Z) (results : list json) :
  runs base (report_results repr i results) (in_steps []).
Proof.
  revert i. induction results as [|result rest IH]; intros i.
  { eapply steps_silent, runs_ret. }
  cbn [report_results].
  apply (steps_bind _ _ _ [] []); [eapply steps_silent, runs_print|intros _].
  apply (steps_bind _ _ _ [] []);
    [apply steps_getitem3; intros v; eapply steps_silent, runs_print|intros _].
  apply (steps_bind _ _ _ [] []);
    [apply steps_getitem3; intros v; eapply steps_silent, runs_print|intros _].
  apply IH.
Qed.



Lemma advanced_example_trace (sched : list (list nat)) (s : state) :
  (exists n,
     n <= 3 /\
     url <$> sent (snd (advanced_example srv repr dumps sched s)) =
       (url <$> sent s) ++
       concat (take n [ [ "http://localhost:3200/api/v1/auth/login" ];
                        [ "http://localhost:3200/api/v1/engine/reason";
                          "http://localhost:3200/api/v1/engine/reason";
                          "http://localhost:3200/api/v1/engine/reason" ];
                        [ "http://localhost:3200/api/v1/analytics/metrics" ] ]) /\
     (forall a, fst (advanced_example srv repr dumps sched s) = Ok a -> n = 3)) /\
  session (self (snd (advanced_example srv repr dumps sched s))) =
    Some {| closed := true |}.
Proof.
  unfold advanced_example. unfold bind at 1. unfold print at 1. cbv beta iota.
  match goal with
  | |- context [async_with_client ?b ?body ?s'] =>
      destruct (async_with_client_runs b body
        (in_steps [ [ "http://localhost:3200/api/v1/auth/login" ];
                    [ "http://localhost:3200/api/v1/engine/reason";
                      "http://localhost:3200/api/v1/engine/reason";
                      "http://localhost:3200/api/v1/engine/reason" ];
                    [ "http://localhost:3200/api/v1/analytics/metrics" ] ]) s')
        as ((us & Hsent & n & Hn & -> & Hall) & Hclosed)
  end.
  { unfold advanced_example_tasks. fold_calls.
    eapply runs_conseq.
    { eapply steps_bind; [eapply steps_block, runs_login|intros _].
      eapply steps_bind; [eapply steps_block, runs_gather|intros results].
      eapply steps_bind; [eapply steps_silent, runs_print|intros _].
      eapply steps_bind; [apply report_results_steps|intros _].
      eapply steps_bind; [eapply steps_block, runs_invoke|intros metrics].
      eapply steps_silent, runs_print. }
    intros o us H. exact H. }
  split; [|exact Hclosed].
  exists n. cbn [length] in *. split; [exact Hn|]. split; [|exact Hall].
  rewrite Hsent. reflexivity.
Qed.

Lemma error_handling_example_trace (s : state) :
  fst (error_handling_example srv repr message s) = Ok tt /\
  (url <$> sent (snd (error_handling_example srv repr message s)) =
     (url <$> sent s) ++
     [ "http://localhost:3200/api/v1/auth/login";
       "http://localhost:3200/api/v1/auth/login" ] \/
   url <$> sent (snd (error_handling_example srv repr message s)) =
     (url <$> sent s) ++
     [ "http://localhost:3200/api/v1/auth/login";
       "http://localhost:3200/api/v1/auth/login";
       "http://localhost:3200/api/v1/engine/reason" ]) /\
  session (self (snd (error_handling_example srv repr message s))) =
    Some {| closed := true |}.
Proof.
  unfold error_handling_example. unfold bind at 1. unfold print at 1.
  cbv beta iota.
  match goal with
  | |- context [async_with_client ?b ?body ?s'] =>
      destruct (async_with_client_runs b body
        (fun o us =>
           o = Ok tt /\
           (us = [ "http://localhost:3200/api/v1/auth/login";
                   "http://localhost:3200/api/v1/auth/login" ] \/
            us = [ "http://localhost:3200/api/v1/auth/login";
                   "http://localhost:3200/api/v1/auth/login";
                   "http://localhost:3200/api/v1/engine/reason" ])) s')
        as ((us & Hsent & Ho & Hus) & Hclosed)
  end.
  { fold_calls. eapply runs_conseq.
    { eapply runs_bind.
      - eapply runs_try_except.
        + eapply runs_bind; [apply runs_login|intros ?; apply runs_ret].
        + intros e. apply runs_print.
      - intros ?. eapply runs_try_except_else.
        + apply runs_login.
        + intros e. apply runs_print.
        + intros ?. eapply runs_bind; [apply runs_print|intros ?].
          eapply runs_try_except.
          * eapply runs_bind; [apply runs_invoke|intros result].
            eapply runs_bind; [apply runs_getitem3|intros v].
            apply runs_print.
          * intros e. apply runs_print. }
    cbv beta. intros o us H.
    repeat match goal with
           | H : _ \/ _ |- _ => destruct H
           | H : _ /\ _ |- _ => destruct H
           | H : exists _, _ |- _ => destruct H
           end; subst; try discriminate; cbn; auto. }
  split; [exact Ho|]. split; [|exact Hclosed].
  destruct Hus as [->| ->]; [left|right]; exact Hsent.
Qed.



(** X12: [error_handling_example] catches whatever its logins and its reasoning
    call raise: it always returns.  Both logins are made, the reasoning
    request at most once after them, and the session is closed at the end. *)
Theorem error_handling_example_never_raises (s : state) :
  fst (error_handling_example srv repr message s) = Ok tt /\
  (url <$> sent (snd (error_handling_example srv repr message s)) =
     (url <$> sent s) ++
     [ "http://localhost:3200/api/v1/auth/login";
       "http://localhost:3200/api/v1/auth/login" ] \/
   url <$> sent (snd (error_handling_example srv repr message s)) =
     (url <$> sent s) ++
     [ "http://localhost:3200/api/v1/auth/login";
       "http://localhost:3200/api/v1/auth/login";
       "http://localhost:3200/api/v1/engine/reason" ]) /\
  session (self (snd (error_handling_example srv repr message s))) =
    Some {| closed := true |}.
Proof. exact (error_handling_example_trace s). Qed.

(** X13: [main] runs the three examples in turn, each in a scope of its own.
    Whatever the service does, the session of the last example it got to is
    closed when it ends; and it raises only what [basic_example] raises, or
    what [advanced_example] raises after [basic_example] has returned. *)
Theorem main_closes_its_sessions_and_fails_with_an_example
    (sched : list (list nat)) (s : state) :
  session (self (snd (main srv repr dumps message sched s))) =
    Some {| closed := true |} /\
  fst (main srv repr dumps message sched s) =
    match fst (basic_example srv repr dumps s) with
    | Raise e => Raise e
    | Ok _ =>
        match fst (advanced_example srv repr dumps sched
                     (snd (print (nl +:+ str_times "=" 50 +:+ nl)
                             (snd (basic_example srv repr dumps s))))) with
        | Raise e => Raise e
        | Ok _ => Ok tt
        end
    end.
Proof.
  unfold main, bind.
  destruct (basic_example_trace s) as (_ & Hb).
  destruct (basic_example srv repr dumps s) as [[[]|e] s1]; cbn [fst snd] in *;
    [|done].
  set (s2 := snd (print (nl +:+ str_times "=" 50 +:+ nl) s1)).
  change (print (nl +:+ str_times "=" 50 +:+ nl) s1) with (Ok tt, s2).
  cbv beta iota.
  destruct (advanced_example_trace sched s2) as (_ & Ha).
  destruct (advanced_example srv repr dumps sched s2) as [[[]|e] s3];
    cbn [fst snd] in *; [|done].
  set (s4 := snd (print (nl +:+ str_times "=" 50 +:+ nl) s3)).
  change (print (nl +:+ str_times "=" 50 +:+ nl) s3) with (Ok tt, s4).
  cbv beta iota.
  destruct (error_handling_example_trace s4) as (He & _ & Hc).
  destruct (error_handling_example srv repr message s4) as [o s5].
  cbn [fst snd] in *. by subst o.
Qed.

End ProgramProperties.

(** * Closed instances *)

Example truthy_falsy_values :
  Py.truthy <$> [JNull; JBool false; JInt 0; JFloat (-0)%float; JStr "";
                 JArr []; JObj ∅] = replicate 7 false.
Proof. vm_compute. reflexivity. Qed.

Example truthy_truthy_values :
  Py.truthy <$> [JBool true; JInt (-1); JFloat nan; JStr "0"; JArr [JNull];
                 JObj {[ "success" := JBool false ]}] = replicate 6 true.
Proof. vm_compute. reflexivity. Qed.

Example str_of_scalars :
  Py.str no_repr <$> [JNull; JBool true; JBool false; JInt (-5); JStr "T1"] =
  ["None"; "True"; "False"; "-5"; "T1"].
Proof. vm_compute. reflexivity. Qed.

(** Outside the scope there is no session to post through, and after the
    scope the session refuses. *)
Example login_outside_scope :
  fst (await (login mock_server "a@x.com" "p")
         {| self := __init__ default_base_url; sent := []; stdout := [] |}) =
    Raise (AttributeError "post") /\
  fst (await (login mock_server "a@x.com" "p") (snd (__aexit__ opened))) =
    Raise (RuntimeError "Session is closed").
Proof. split; vm_compute; reflexivity. Qed.

(** A good login, then a rejected one, then [get_metrics]: the request
    carries the first login's token. *)
Example rejected_login_scenario :
  fst (await (login mock_server "bad@x.com" "p")
         (snd (await (login mock_server "a@x.com" "p") opened))) =
    Raise (Exception "登录失败") /\
  last (sent (snd (await (get_metrics mock_server no_repr)
    (snd (await (login mock_server "bad@x.com" "p")
       (snd (await (login mock_server "a@x.com" "p") opened))))))) =
    Some {| method := GET;
            url := "http://localhost:3200/api/v1/analytics/metrics";
            headers := Some {[ "Content-Type" := "application/json";
                               "Authorization" := "Bearer T1" ]};
            payload := None |}.
Proof. split; vm_compute; reflexivity. Qed.

(** Three tasks complete in the order 2, 0, 1: the lines printed follow
    that order, the list returned follows the argument order. *)
Example batch_completion_order :
  outcome (gather (invoke counting_server no_repr <$>
                     [GetMetrics; GetLearningData; GenerateText "hi" 500])
             [[2]; [0]; [1]] (logged_in "T1")) =
    Some (Ok [ JObj {[ "success" := JBool true;
                       "data" := JObj {[ "n" := JInt 0 ]} ]};
               JObj {[ "success" := JBool true;
                       "data" := JObj {[ "n" := JInt 1 ]} ]};
               JObj {[ "success" := JBool true;
                       "data" := JObj {[ "n" := JInt 2 ]} ]} ]) /\
  stdout (final (gather (invoke counting_server no_repr <$>
                           [GetMetrics; GetLearningData; GenerateText "hi" 500])
                   [[2]; [0]; [1]] (logged_in "T1"))) =
    [ "📊 获取系统指标..."; "🧠 获取学习数据..."; "🤖 发起文本生成请求...";
      "✅ 生成完成"; "✅ 指标获取完成"; "✅ 学习数据获取完成" ].
Proof. split; vm_compute; reflexivity. Qed.

(** With the service down and the three failures coming in together, every
    task of the batch holds an exception when the awaiter resumes; it is
    raised the first.  When the second and third come in a turn later they
    have settled as well by then; a turn after that they have not. *)
Example batch_with_several_failures :
  tasks (advanced_example_batch unreachable_server no_repr [[2; 0; 1]]
           (logged_in "T1")) =
    [ Finished (Raise ClientConnectionError);
      Finished (Raise ClientConnectionError);
      Finished (Raise ClientConnectionError) ] /\
  tasks (advanced_example_batch unreachable_server no_repr [[0]; [1; 2]]
           (logged_in "T1")) =
    [ Finished (Raise ClientConnectionError);
      Finished (Raise ClientConnectionError);
      Finished (Raise ClientConnectionError) ] /\
  tasks (advanced_example_batch unreachable_server no_repr [[0]; []; [1; 2]]
           (logged_in "T1")) =
    [ Finished (Raise ClientConnectionError);
      Running Unreachable;
      Running Unreachable ] /\
  outcome (advanced_example_batch unreachable_server no_repr [[2; 0; 1]]
             (logged_in "T1")) = Some (Raise ClientConnectionError).
Proof. repeat split; vm_compute; reflexivity. Qed.

(** [basic_example] against a service that does not know the user: one
    request, and the login's exception.  Against one that grants the login
    and answers the reasoning request with a body that has no [result]: two
    requests, and the [KeyError] of the first line that reads it. *)
Example basic_example_runs :
  fst (basic_example mock_server no_repr no_repr opened) =
    Raise (Exception "登录失败") /\
  url <$> sent (snd (basic_example mock_server no_repr no_repr opened)) =
    [ "http://localhost:3200/api/v1/auth/login" ] /\
  fst (basic_example server_500_with_token no_repr no_repr opened) =
    Raise (KeyError "result") /\
  url <$> sent (snd (basic_example server_500_with_token no_repr no_repr
                       opened)) =
    [ "http://localhost:3200/api/v1/auth/login";
      "http://localhost:3200/api/v1/engine/reason" ].
Proof. repeat split; vm_compute; reflexivity. Qed.

(** [advanced_example] with the service going down after the login: the
    three requests of the batch are handed over all the same, the batch
    raises, and the metrics are never asked for. *)
Example advanced_example_runs :
  fst (advanced_example
         (fun log rq => if (length log =? 0)%nat
                        then server_500_with_token log rq else Unreachable)
         no_repr no_repr [[1]] opened) = Raise ClientConnectionError /\
  url <$> sent (snd (advanced_example
         (fun log rq => if (length log =? 0)%nat
                        then server_500_with_token log rq else Unreachable)
         no_repr no_repr [[1]] opened)) =
    [ "http://localhost:3200/api/v1/auth/login";
      "http://localhost:3200/api/v1/engine/reason";
      "http://localhost:3200/api/v1/engine/reason";
      "http://localhost:3200/api/v1/engine/reason" ].
Proof. repeat split; vm_compute; reflexivity. Qed.

Lemma empty_slot_sends_bearer_none_witness :
  _get_headers no_repr (self opened) !! "Authorization" = Some "Bearer None" /\
  _get_headers no_repr (self opened) =
    {[ "Content-Type" := "application/json"; "Authorization" := "Bearer None" ]} /\
  headers (request_of no_repr GetLearningData (self opened)) =
    Some (_get_headers no_repr (self opened)) /\
  fst (send (invoke mock_server no_repr GetLearningData) opened) =
    Ok (mock_server (sent opened)
          (request_of no_repr GetLearningData (self opened))) /\
  sent (snd (send (invoke mock_server no_repr GetLearningData) opened)) =
    sent opened ++ [request_of no_repr GetLearningData (self opened)].
Proof.
  destruct (empty_slot_sends_bearer_none mock_server no_repr GetLearningData
              opened eq_refl) as ((H1 & H2 & H3) & Hopen & _).
  destruct (Hopen eq_refl) as (H4 & H5).
  repeat split; assumption.
Defined.

(** C10 fails on the code: on the client [__init__] makes, the token slot
    is empty and [get_metrics] fails locally, on [self.session.get]; no
    request, with or without [Bearer None], reaches the transport. *)
Lemma fresh_client_call_fails_locally :
  token (__init__ default_base_url) = JNull /\
  fst (await (get_metrics mock_server no_repr)
         {| self := __init__ default_base_url; sent := []; stdout := [] |}) =
    Raise (AttributeError "get") /\
  sent (snd (await (get_metrics mock_server no_repr)
               {| self := __init__ default_base_url; sent := [];
                  stdout := [] |})) = [].
Proof. repeat split; vm_compute; reflexivity. Qed.

Lemma call_without_token_is_dispatched_witness :
  sent (snd (await (invoke mock_server no_repr (GenerateText "hi" 500)) opened)) =
    sent opened ++ [request_of no_repr (GenerateText "hi" 500) (self opened)] /\
  fst (await (invoke mock_server no_repr (GenerateText "hi" 500)) opened) =
    decoded (mock_server (sent opened)
               (request_of no_repr (GenerateText "hi" 500) (self opened))).
Proof.
  apply (call_without_token_is_dispatched mock_server no_repr
           (GenerateText "hi" 500) opened);
    reflexivity.
Defined.

(** C1 fails on the code: no token is stored, yet [get_metrics] returns the
    service's answer and its request, with [Bearer None], is in the
    transport's log. *)
Lemma call_without_token_not_refused :
  token (self opened) = JNull /\
  fst (await (get_metrics mock_server no_repr) opened) =
    Ok (JObj {[ "success" := JBool true;
                "data" := JObj {[ "x" := JInt 1 ]} ]}) /\
  sent (snd (await (get_metrics mock_server no_repr) opened)) =
    [ {| method := GET;
         url := "http://localhost:3200/api/v1/analytics/metrics";
         headers := Some {[ "Content-Type" := "application/json";
                            "Authorization" := "Bearer None" ]};
         payload := None |} ].
Proof. repeat split; vm_compute; reflexivity. Qed.

Lemma dispatch_returns_any_decoded_body_witness :
  fst (await (invoke rejecting_server no_repr GetMetrics) (logged_in "T1")) =
    Ok (JObj {[ "success" := JBool false; "message" := JStr "boom" ]}).
Proof.
  apply (dispatch_returns_any_decoded_body rejecting_server no_repr
           GetMetrics (logged_in "T1") 500);
    reflexivity.
Defined.

(** C4 fails on the code: the service answers with status 500 and
    [success: false], and [reason] returns that body as its result. *)
Lemma rejected_dispatch_returns_body :
  rejecting_server (sent (logged_in "T1"))
    (reason_request no_repr (self (logged_in "T1")) "测试推理" (Some []) (Some []) None) =
    Answer {| status := 500;
              content := Json (JObj {[ "success" := JBool false;
                                       "message" := JStr "boom" ]}) |} /\
  fst (await (reason rejecting_server no_repr "测试推理" (Some []) (Some []) None)
         (logged_in "T1")) =
    Ok (JObj {[ "success" := JBool false; "message" := JStr "boom" ]}).
Proof. split; vm_compute; reflexivity. Qed.

Lemma rejected_login_keeps_token_witness :
  fst (await (login mock_server "invalid@example.com" "wrong-password")
         (logged_in "T1")) = Raise (Exception "登录失败") /\
  token (self (snd (await (login mock_server "invalid@example.com" "wrong-password")
                      (logged_in "T1")))) = token (self (logged_in "T1")) /\
  forall k : call,
    headers (request_of no_repr k
               (self (snd (await (login mock_server "invalid@example.com"
                                    "wrong-password") (logged_in "T1"))))) =
    headers (request_of no_repr k (self (logged_in "T1"))).
Proof.
  apply (rejected_login_keeps_token mock_server no_repr
           "invalid@example.com" "wrong-password" (logged_in "T1") 401
           {[ "success" := JBool false ]});
    reflexivity.
Defined.

(** C2 fails on the code: the login is answered with status 500, the body
    carries the marker, and the stored token [T1] is replaced by [T2]. *)
Lemma login_answered_500_overwrites_token :
  token (self (logged_in "T1")) = JStr "T1" /\
  server_500_with_token (sent (logged_in "T1"))
    (login_request (self (logged_in "T1")) "user@example.com" "your-password") =
    Answer {| status := 500;
              content := Json (JObj {[ "success" := JBool true;
                                       "data" := JObj {[ "token" := JStr "T2" ]} ]}) |} /\
  fst (await (login server_500_with_token "user@example.com" "your-password")
         (logged_in "T1")) =
    Ok (JObj {[ "success" := JBool true;
                "data" := JObj {[ "token" := JStr "T2" ]} ]}) /\
  token (self (snd (await (login server_500_with_token "user@example.com"
                             "your-password") (logged_in "T1")))) = JStr "T2".
Proof. repeat split; vm_compute; reflexivity. Qed.

Lemma login_stores_token_and_returns_body_witness :
  login_request (self (logged_in "T0")) "a@x.com" "p" =
    {| method := POST;
       url := base_url (self (logged_in "T0")) +:+ "/api/v1/auth/login";
       headers := None;
       payload := Some (JObj {[ "email" := JStr "a@x.com";
                                "password" := JStr "p" ]}) |} /\
  await (login mock_server "a@x.com" "p") (logged_in "T0") =
    (Ok (JObj {[ "success" := JBool true;
                 "data" := JObj {[ "token" := JStr "T1" ]} ]}),
     {| self := {| base_url := base_url (self (logged_in "T0"));
                   token := JStr "T1";
                   session := session (self (logged_in "T0")) |};
        sent := sent (logged_in "T0") ++
                [login_request (self (logged_in "T0")) "a@x.com" "p"];
        stdout := stdout (logged_in "T0") ++ ["✅ 登录成功，令牌已保存"] |}).
Proof.
  apply (login_stores_token_and_returns_body mock_server
           "a@x.com" "p" (logged_in "T0") 200
           {[ "success" := JBool true;
              "data" := JObj {[ "token" := JStr "T1" ]} ]}
           {[ "token" := JStr "T1" ]} (JStr "T1"));
    reflexivity.
Defined.

(** C5 fails on the code: [login] returns the decoded body, which is not the
    token it has stored. *)
Lemma login_returns_body_not_token :
  fst (await (login mock_server "a@x.com" "p") opened) =
    Ok (JObj {[ "success" := JBool true;
                "data" := JObj {[ "token" := JStr "T1" ]} ]}) /\
  token (self (snd (await (login mock_server "a@x.com" "p") opened))) =
    JStr "T1" /\
  fst (await (login mock_server "a@x.com" "p") opened) <> Ok (JStr "T1").
Proof.
  assert (H : fst (await (login mock_server "a@x.com" "p") opened) =
    Ok (JObj {[ "success" := JBool true;
                "data" := JObj {[ "token" := JStr "T1" ]} ]}))
    by (vm_compute; reflexivity).
  split; [exact H|]. split; [vm_compute; reflexivity|].
  rewrite H. discriminate.
Qed.

Lemma login_then_call_carries_bearer_witness :
  headers (request_of no_repr GetMetrics
             (self (snd (await (login mock_server "a@x.com" "p") opened)))) =
    Some {[ "Content-Type" := "application/json";
            "Authorization" := "Bearer " +:+ "T1" ]} /\
  sent (snd (await (invoke mock_server no_repr GetMetrics)
               (snd (await (login mock_server "a@x.com" "p") opened)))) =
    sent (snd (await (login mock_server "a@x.com" "p") opened)) ++
    [request_of no_repr GetMetrics
       (self (snd (await (login mock_server "a@x.com" "p") opened)))] /\
  fst (await (invoke mock_server no_repr GetMetrics)
         (snd (await (login mock_server "a@x.com" "p") opened))) =
    Ok (JObj {[ "success" := JBool true;
                "data" := JObj {[ "x" := JInt 1 ]} ]}).
Proof.
  apply (login_then_call_carries_bearer mock_server no_repr
           "a@x.com" "p" opened
           (snd (await (login mock_server "a@x.com" "p") opened))
           {[ "success" := JBool true;
              "data" := JObj {[ "token" := JStr "T1" ]} ]}
           {[ "token" := JStr "T1" ]} "T1" GetMetrics 200);
    reflexivity.
Defined.

Lemma gather_results_follow_input_order_witness :
  (forall vs,
     outcome (gather (invoke mock_server no_repr <$> advanced_example_calls no_repr)
                [[2]; [0]] (logged_in "T1")) = Some (Ok vs) ->
     length vs = length (advanced_example_calls no_repr) /\
     Ok <$> vs =
       decoded <$> replies_to mock_server no_repr (advanced_example_calls no_repr)
                     (sent (logged_in "T1")) (self (logged_in "T1"))) /\
  (forall ds,
     decoded <$> replies_to mock_server no_repr (advanced_example_calls no_repr)
                   (sent (logged_in "T1")) (self (logged_in "T1")) =
       Ok <$> ds ->
     outcome (gather (invoke mock_server no_repr <$> advanced_example_calls no_repr)
                [[2]; [0]] (logged_in "T1")) = Some (Ok ds)).
Proof.
  apply (gather_results_follow_input_order mock_server no_repr
           (advanced_example_calls no_repr) [[2]; [0]] (logged_in "T1")).
  reflexivity.
Defined.

(** C7 fails on the code: the second of three requests is lost; all three
    dispatches settle, and the awaiter gets the exception, not a list. *)
Lemma gather_with_a_failure_returns_no_list :
  outcome (advanced_example_batch second_request_lost no_repr [[0]; [2]; [1]]
             (logged_in "T1")) = Some (Raise ClientConnectionError) /\
  tasks (advanced_example_batch second_request_lost no_repr [[0]; [2]; [1]]
           (logged_in "T1")) =
    [ Finished (Ok (JObj {[ "success" := JBool true;
                            "data" := JObj {[ "n" := JInt 0 ]} ]}));
      Finished (Raise ClientConnectionError);
      Finished (Ok (JObj {[ "success" := JBool true;
                            "data" := JObj {[ "n" := JInt 2 ]} ]})) ].
Proof. split; vm_compute; reflexivity. Qed.

(** C3 fails on the code: the lost request's task settles first and no other
    reply is in by the time the awaiter resumes; it is raised to while the
    two siblings are still suspended on their replies, and no slot of any
    result records the error. *)
Lemma gather_raises_with_siblings_in_flight :
  outcome (advanced_example_batch second_request_lost no_repr [[1]; []]
             (logged_in "T1")) = Some (Raise ClientConnectionError) /\
  tasks (advanced_example_batch second_request_lost no_repr [[1]; []]
           (logged_in "T1")) =
    [ Running (answer 200 {[ "success" := JBool true;
                             "data" := JObj {[ "n" := JInt 0 ]} ]});
      Finished (Raise ClientConnectionError);
      Running (answer 200 {[ "success" := JBool true;
                             "data" := JObj {[ "n" := JInt 2 ]} ]}) ] /\
  stdout (final (advanced_example_batch second_request_lost no_repr [[1]; []]
                   (logged_in "T1"))) =
    [ "🧠 发起智能推理请求..."; "🧠 发起智能推理请求..."; "🧠 发起智能推理请求..." ].
Proof. repeat split; vm_compute; reflexivity. Qed.

(** ** Instances of the further properties *)

Lemma login_returns_exactly_when_granted_witness :
  (forall body,
     fst (await (login mock_server "a@x.com" "p") opened) = Ok body <->
     exists code m d t,
       mock_server (sent opened) (login_request (self opened) "a@x.com" "p") =
         Answer {| status := code; content := Json (JObj m) |} /\
       body = JObj m /\
       Py.truthy (default JNull (m !! "success")) = true /\
       m !! "data" = Some (JObj d) /\
       d !! "token" = Some t) /\
  (forall e,
     fst (await (login mock_server "a@x.com" "p") opened) = Raise e ->
     snd (await (login mock_server "a@x.com" "p") opened) =
       {| self := self opened;
          sent := sent opened ++ [login_request (self opened) "a@x.com" "p"];
          stdout := stdout opened |}).
Proof.
  apply (login_returns_exactly_when_granted mock_server "a@x.com" "p" opened).
  reflexivity.
Defined.

Lemma login_raises_on_undecodable_or_non_dict_witness :
  (forall e,
     decoded (second_request_lost ([get_metrics_request no_repr (self opened)])
                (login_request (self opened) "a@x.com" "p")) = Raise e ->
     fst (await (login second_request_lost "a@x.com" "p")
            {| self := self opened;
               sent := [get_metrics_request no_repr (self opened)];
               stdout := [] |}) = Raise e) /\
  (forall data,
     decoded (second_request_lost ([get_metrics_request no_repr (self opened)])
                (login_request (self opened) "a@x.com" "p")) = Ok data ->
     (forall m, data <> JObj m) ->
     fst (await (login second_request_lost "a@x.com" "p")
            {| self := self opened;
               sent := [get_metrics_request no_repr (self opened)];
               stdout := [] |}) = Raise (AttributeError "get")).
Proof.
  apply (login_raises_on_undecodable_or_non_dict second_request_lost
           "a@x.com" "p"
           {| self := self opened;
              sent := [get_metrics_request no_repr (self opened)];
              stdout := [] |}).
  reflexivity.
Defined.

Lemma login_with_marker_but_no_token_witness :
  (({[ "success" := JBool true; "data" := JObj {[ "n" := JInt 0 ]} ]}
      : gmap string json) !! "data" = None ->
   fst (await (login counting_server "a@x.com" "p") opened) =
     Raise (KeyError "data")) /\
  (forall v,
     ({[ "success" := JBool true; "data" := JObj {[ "n" := JInt 0 ]} ]}
        : gmap string json) !! "data" = Some v ->
     (forall d, v <> JObj d) ->
     fst (await (login counting_server "a@x.com" "p") opened) = Raise TypeError) /\
  (forall d,
     ({[ "success" := JBool true; "data" := JObj {[ "n" := JInt 0 ]} ]}
        : gmap string json) !! "data" = Some (JObj d) ->
     d !! "token" = None ->
     fst (await (login counting_server "a@x.com" "p") opened) =
       Raise (KeyError "token")).
Proof.
  apply (login_with_marker_but_no_token counting_server "a@x.com" "p" opened 200
           {[ "success" := JBool true; "data" := JObj {[ "n" := JInt 0 ]} ]});
    reflexivity.
Defined.

Lemma call_outside_scope_sends_nothing_witness :
  (session (__init__ default_base_url) = None ->
   fst (await (invoke mock_server no_repr GetMetrics)
          {| self := __init__ default_base_url; sent := []; stdout := [] |}) =
     Raise (AttributeError
              (attr_of (method (request_of no_repr GetMetrics
                                  (__init__ default_base_url)))))) /\
  (session (__init__ default_base_url) <> None ->
   fst (await (invoke mock_server no_repr GetMetrics)
          {| self := __init__ default_base_url; sent := []; stdout := [] |}) =
     Raise (RuntimeError "Session is closed")) /\
  snd (await (invoke mock_server no_repr GetMetrics)
         {| self := __init__ default_base_url; sent := []; stdout := [] |}) =
    {| self := __init__ default_base_url; sent := [];
       stdout := [] ++ [line_before GetMetrics] |}.
Proof.
  apply (call_outside_scope_sends_nothing mock_server no_repr GetMetrics
           {| self := __init__ default_base_url; sent := []; stdout := [] |}).
  reflexivity.
Defined.

Lemma call_prints_closing_line_only_on_return_witness :
  stdout (snd (await (invoke mock_server no_repr GetMetrics) opened)) =
    stdout opened ++
    match fst (await (invoke mock_server no_repr GetMetrics) opened) with
    | Ok _ => [line_before GetMetrics; line_after GetMetrics]
    | Raise _ => [line_before GetMetrics]
    end.
Proof.
  apply (call_prints_closing_line_only_on_return mock_server no_repr
           GetMetrics opened).
  reflexivity.
Defined.

Lemma gather_sends_each_request_once_in_order_witness :
  sent (final (gather (invoke second_request_lost no_repr <$>
                         advanced_example_calls no_repr) [[1]] (logged_in "T1"))) =
    sent (logged_in "T1") ++
    ((fun k => request_of no_repr k (self (logged_in "T1"))) <$>
       advanced_example_calls no_repr) /\
  self (final (gather (invoke second_request_lost no_repr <$>
                         advanced_example_calls no_repr) [[1]] (logged_in "T1"))) =
    self (logged_in "T1").
Proof.
  apply (gather_sends_each_request_once_in_order second_request_lost no_repr
           (advanced_example_calls no_repr) [[1]] (logged_in "T1")).
  reflexivity.
Defined.

Lemma gather_raises_exactly_when_a_reply_fails_witness :
  (forall e,
     outcome (gather (invoke second_request_lost no_repr <$>
                        advanced_example_calls no_repr) [[1]] (logged_in "T1")) =
       Some (Raise e) ->
     exists i r,
       replies_to second_request_lost no_repr (advanced_example_calls no_repr)
         (sent (logged_in "T1")) (self (logged_in "T1")) !! i = Some r /\
       decoded r = Raise e) /\
  ((exists vs,
      outcome (gather (invoke second_request_lost no_repr <$>
                         advanced_example_calls no_repr) [[1]] (logged_in "T1")) =
        Some (Ok vs)) <->
   Forall (fun r => exists data, decoded r = Ok data)
     (replies_to second_request_lost no_repr (advanced_example_calls no_repr)
        (sent (logged_in "T1")) (self (logged_in "T1")))).
Proof.
  apply (gather_raises_exactly_when_a_reply_fails second_request_lost no_repr
           (advanced_example_calls no_repr) [[1]] (logged_in "T1")).
  reflexivity.
Defined.

Lemma gather_outside_scope_sends_nothing_witness :
  (exists e,
     fst (await (invoke mock_server no_repr GetMetrics) (snd (__aexit__ opened))) =
       Raise e /\
     outcome (gather (invoke mock_server no_repr <$>
                        GetMetrics :: [GetLearningData]) [[1]; [0]]
                (snd (__aexit__ opened))) = Some (Raise e)) /\
  sent (final (gather (invoke mock_server no_repr <$>
                         GetMetrics :: [GetLearningData]) [[1]; [0]]
                 (snd (__aexit__ opened)))) = sent (snd (__aexit__ opened)) /\
  self (final (gather (invoke mock_server no_repr <$>
                         GetMetrics :: [GetLearningData]) [[1]; [0]]
                 (snd (__aexit__ opened)))) = self (snd (__aexit__ opened)).
Proof.
  apply (gather_outside_scope_sends_nothing mock_server no_repr
           GetMetrics [GetLearningData] [[1]; [0]] (snd (__aexit__ opened))).
  reflexivity.
Defined.
